(** * Term and reversion cash flow: a model of [app.py]

    The script reads a lease table, takes a valuation date and an escalation
    percentage, and fills a ten-year grid of rents, one row per tenant.
    This file embeds the computation of lines 53-86 of [src/app.py]:

    - calendar dates are [pandas.Timestamp]s, modelled as the integer count
      of nanoseconds since 1970-01-01 (what a Timestamp stores);
    - Python [float]s are IEEE binary64 numbers, modelled by the kernel's
      primitive floats, whose operations round to nearest, ties to even,
      as Python's do;
    - Python's arbitrary-precision [int]s are [Z];
    - the exceptions the arithmetic can raise are threaded through an
      error monad: the script's [try ... except] turns the first one into
      an error message and no grid.

    The C library's [pow], which Python's [**] calls for floats, is the one
    operation that has no exact specification; it is a parameter of the
    model ([libm_pow]).  A reference instance ([ReferenceLibm.pow]) rounds
    the exact power correctly and serves for evaluating examples. *)

From Stdlib Require Import Reals Lra.
From Stdlib Require Import ZArith List Lia Bool String Ascii Uint63 Floats.
From Stdlib Require Import DecimalString.
Import ListNotations.

Local Open Scope Z_scope.

(** ** Exceptions *)

Inductive pyerr : Type :=
| OverflowError
| ZeroDivisionError
| ValueError.

Inductive result (A : Type) : Type :=
| Ok (a : A)
| Raise (e : pyerr).

Arguments Ok {A} a.
Arguments Raise {A} e.

Definition bind {A B : Type} (c : result A) (k : A -> result B) : result B :=
  match c with
  | Ok a => k a
  | Raise e => Raise e
  end.

Notation "x <- c ;; k" := (bind c (fun x => k))
  (at level 61, c at next level, right associativity).

(** [mapM f l] runs [f] over [l] from left to right and stops at the first
    exception, as a [for] loop that appends to a list does. *)
Fixpoint mapM {A B : Type} (f : A -> result B) (l : list A) : result (list B) :=
  match l with
  | [] => Ok []
  | a :: l' => b <- f a ;; bs <- mapM f l' ;; Ok (b :: bs)
  end.

(** ** The calendar *)

Module Calendar.

Definition is_leap (y : Z) : bool :=
  ((y mod 4 =? 0) && negb (y mod 100 =? 0)) || (y mod 400 =? 0).

(** Days of the proleptic Gregorian calendar before January 1 of year [y]. *)
Definition days_before_year (y : Z) : Z :=
  let p := y - 1 in
  p * 365 + p / 4 - p / 100 + p / 400.

Definition days_in_month (y m : Z) : Z :=
  if m =? 2 then (if is_leap y then 29 else 28)
  else if (m =? 4) || (m =? 6) || (m =? 9) || (m =? 11) then 30
  else 31.

(** Days of year [y] before the first day of month [m] (1..12). *)
Definition days_before_month (y m : Z) : Z :=
  fold_right Z.add 0
    (map (days_in_month y) (map Z.of_nat (seq 1 (Z.to_nat (m - 1))))).

(** The ordinal of a date: 1 for 0001-01-01. *)
Definition ordinal (y m d : Z) : Z :=
  days_before_year y + days_before_month y m + d.

Definition epoch_ordinal : Z := Eval vm_compute in ordinal 1970 1 1.

Definition ns_per_day : Z := 86400000000000.

(** A [pandas.Timestamp] without time zone: nanoseconds since the epoch. *)
Definition Timestamp : Type := Z.

(** [pd.Timestamp("y-m-d")]: midnight of that day. *)
Definition Timestamp_of_date (y m d : Z) : Timestamp :=
  (ordinal y m d - epoch_ordinal) * ns_per_day.

(** [(a - b).days]: a [Timedelta] normalises to whole days (floor),
    seconds and smaller units. *)
Definition Timedelta_days (td : Z) : Z := td / ns_per_day.

(** [pd.Timestamp(f"{year}-01-01")] and [pd.Timestamp(f"{year}-12-31")]. *)
Definition start_of_year (year : Z) : Timestamp := Timestamp_of_date year 1 1.
Definition end_of_year (year : Z) : Timestamp := Timestamp_of_date year 12 31.

End Calendar.

(** ** Python numbers *)

Inductive pynum : Type :=
| PyInt (n : Z)
| PyFloat (x : float).

Module PyFloat.

Local Open Scope float_scope.

(** The binary64 number nearest to the integer [n] (ties to even). *)
Definition SF_of_Z (n : Z) : spec_float := binary_normalize prec emax n 0 false.

(** [float(n)] for an [int]: correctly rounded; [OverflowError] when the
    integer is too large for a float. *)
Definition of_int (n : Z) : result float :=
  match SF_of_Z n with
  | S754_infinity _ => Raise OverflowError
  | sf => Ok (SF2Prim sf)
  end.

(** Small integer constants of the source ([1], [100]) convert exactly. *)
Definition const (n : Z) : float := SF2Prim (SF_of_Z n).

(** The conversion an arithmetic operator applies to an operand before a
    float operation. *)
Definition to_float (a : pynum) : result float :=
  match a with
  | PyInt n => of_int n
  | PyFloat x => Ok x
  end.

(** [a * b] where [b] is a float. *)
Definition mul (a : pynum) (b : float) : result float :=
  x <- to_float a ;; Ok (x * b).

(** An integer as an exact (unnormalised) binary number. *)
Definition exact_of_Z (n : Z) : spec_float :=
  match n with
  | Z0 => S754_zero false
  | Zpos p => S754_finite false p 0
  | Zneg p => S754_finite true p 0
  end.

(** [a / b] for two [int]s: the correctly rounded quotient. *)
Definition int_true_div (a b : Z) : result float :=
  if (b =? 0)%Z then Raise ZeroDivisionError
  else
    match SFdiv prec emax (exact_of_Z a) (exact_of_Z b) with
    | S754_infinity _ => Raise OverflowError
    | sf => Ok (SF2Prim sf)
    end.

(** The integer nearest to [a / b] for [b > 0], ties to the even one. *)
Definition div_half_even (a b : Z) : Z :=
  let q := (a / b)%Z in
  match (2 * (a mod b) ?= b)%Z with
  | Lt => q
  | Gt => (q + 1)%Z
  | Eq => if Z.even q then q else (q + 1)%Z
  end.

(** [|x| * 100] rounded to an integer, for the finite number [m * 2^e]. *)
Definition hundredths (m : positive) (e : Z) : Z :=
  match e with
  | Zneg k => div_half_even (Zpos m * 100) (2 ^ Zpos k)
  | _ => (Zpos m * 100 * 2 ^ e)%Z
  end.

Definition round2_SF (x : spec_float) : spec_float :=
  match x with
  | S754_finite s m e =>
      match hundredths m e with
      | Zpos n => SFdiv prec emax (S754_finite s n 0) (S754_finite false 100 0)
      | _ => S754_zero s
      end
  | _ => x
  end.

(** [round(x, 2)] for a float: the exact value of [x] is rounded to two
    decimals, ties to even, and the decimal is converted back to the
    nearest float; infinities and nans are returned as they are. *)
Definition round2 (x : float) : float := SF2Prim (round2_SF (Prim2SF x)).

Definition is_odd_nat (i : nat) : bool := Nat.odd i.

Section Pow.

(** The C library's [pow], called on a positive finite base other than
    1 and a finite non-zero exponent. *)
Variable libm_pow : float -> float -> float.

(** [v ** i] for a float [v] and a non-negative [int] [i]: the
    exponent is converted to a float, the special cases are settled
    without the C library, and an infinite result of [pow] on finite
    arguments is an [OverflowError]. *)
Definition pow (v : float) (i : nat) : result float :=
  let w := const (Z.of_nat i) in
  if w =? 0 then Ok 1
  else if is_nan v then Ok v
  else if is_infinity v then Ok (if is_odd_nat i then v else abs v)
  else if v =? 0 then Ok (if is_odd_nat i then v else 0)
  else
    let negate_result := (v <? 0) && is_odd_nat i in
    let iv := if v <? 0 then - v else v in
    if iv =? 1 then Ok (if negate_result then -1 else 1)
    else
      let ix := libm_pow iv w in
      if is_infinity ix then Raise OverflowError
      else if is_nan ix then Raise ValueError
      else Ok (if negate_result then - ix else ix).

End Pow.

End PyFloat.

(** A reference C library: [pow] returns the correctly rounded value of the
    exact power, for a positive finite base and a positive integral
    exponent (the only calls the projection makes). *)
Module ReferenceLibm.

(** The integer a finite positive float denotes, when it denotes one. *)
Definition integral (m : positive) (e : Z) : option Z :=
  match e with
  | Zneg k =>
      if (Zpos m mod 2 ^ Zpos k =? 0) then Some (Zpos m / 2 ^ Zpos k) else None
  | _ => Some (Zpos m * 2 ^ e)
  end.

Definition pow (x w : float) : float :=
  match Prim2SF x, Prim2SF w with
  | S754_finite false m e, S754_finite false mw ew =>
      match integral mw ew with
      | Some n => SF2Prim (binary_normalize prec emax (Zpos m ^ n) (e * n) false)
      | None => nan
      end
  | _, _ => nan
  end.

End ReferenceLibm.

(** ** The lease table *)

(** One row of the uploaded table, after [pd.to_datetime] has parsed the two
    date columns (lines 49-50). *)
Record LeaseRow : Type := {
  Tenant : string;
  Lease_Start : Calendar.Timestamp;
  Lease_End : Calendar.Timestamp;
  Passing_Rent : pynum;
  Market_Rent : pynum
}.

(** A [datetime.date], what [st.date_input] returns. *)
Record date : Type := { year : Z; month : Z; day : Z }.

(** [list(range(a, b))]. *)
Definition range (a b : Z) : list Z :=
  map (fun k => a + Z.of_nat k) (seq 0 (Z.to_nat (b - a))).

(** [enumerate(l)], as a list of pairs. *)
Definition enumerate {A : Type} (l : list A) : list (nat * A) :=
  combine (seq 0 (List.length l)) l.

(** [str(n)] for an [int]. *)
Definition str (n : Z) : string := NilZero.string_of_int (Z.to_int n).

(** Lines 53-54. *)
Definition years_of (valuation_date_input : date) : list Z :=
  let valuation_year := year valuation_date_input in
  range valuation_year (valuation_year + 10).

(** ** The cash flow matrix (lines 57-83) *)

Section CashFlow.

Variable libm_pow : float -> float -> float.
Variable escalation_percent : float.

Local Open Scope float_scope.

(** [(1 + escalation_percent / 100) ** i] *)
Definition escalation (i : nat) : result float :=
  PyFloat.pow libm_pow (PyFloat.const 1 + escalation_percent / PyFloat.const 100) i.

Local Open Scope Z_scope.

Definition days_in_year (year : Z) : Z :=
  Calendar.Timedelta_days (Calendar.end_of_year year - Calendar.start_of_year year) + 1.

(** The days of the overlap of the lease with the year, both ends
    counted (lines 76-78). *)
Definition days_covered (row : LeaseRow) (year : Z) : Z :=
  let period_start := Z.max (Calendar.start_of_year year) (Lease_Start row) in
  let period_end := Z.min (Calendar.end_of_year year) (Lease_End row) in
  Calendar.Timedelta_days (period_end - period_start) + 1.

(** The body of the inner loop: what is appended to [tenant_row] for the
    year at offset [i]. *)
Definition cell (row : LeaseRow) (i : nat) (year : Z) : result pynum :=
  let start_of_year := Calendar.start_of_year year in
  let end_of_year := Calendar.end_of_year year in
  let lease_start := Lease_Start row in
  let lease_end := Lease_End row in
  if lease_end <? start_of_year then
    e <- escalation i ;;
    annual_rent <- PyFloat.mul (Market_Rent row) e ;;
    Ok (PyFloat (PyFloat.round2 annual_rent))
  else if lease_start >? end_of_year then
    Ok (PyInt 0)
  else
    e <- escalation i ;;
    annual_rent <- PyFloat.mul (Passing_Rent row) e ;;
    fraction <- PyFloat.int_true_div (days_covered row year) (days_in_year year) ;;
    let pro_rated_rent := (annual_rent * fraction)%float in
    Ok (PyFloat (PyFloat.round2 pro_rated_rent)).

(** The inner loop: one list of cells per row. *)
Definition tenant_row (years : list Z) (row : LeaseRow) : result (list pynum) :=
  mapM (fun iy => cell row (fst iy) (snd iy)) (enumerate years).

(** The outer loop. *)
Definition cashflow_matrix (df : list LeaseRow) (years : list Z)
  : result (list (list pynum)) :=
  mapM (tenant_row years) df.

End CashFlow.

(** ** The output table (lines 85-86) *)

Inductive pyobj : Type :=
| Str (s : string)
| Num (n : pynum).

(** A [pandas.DataFrame] with the default index [0 .. n-1]: the column
    labels and the rows. *)
Record DataFrame : Type := { columns : list string; rows : list (list pyobj) }.

Definition is_float (v : pynum) : bool :=
  match v with PyFloat _ => true | PyInt _ => false end.

Definition int64_min : Z := - 2 ^ 63.
Definition int64_max : Z := 2 ^ 63 - 1.

(** A column that can be stored as [float64]: floats and integers of the
    [int64] range. *)
Definition float64_able (v : pynum) : bool :=
  match v with
  | PyFloat _ => true
  | PyInt n => (int64_min <=? n) && (n <=? int64_max)
  end.

Definition column_of (j : nat) (data : list (list pynum)) : list pynum :=
  flat_map (fun r => match nth_error r j with Some v => [v] | None => [] end) data.

(** The constructor infers one type per column: a column that holds a
    float and otherwise numbers a [float64] can hold becomes a [float64]
    column, and its integers are converted. *)
Definition becomes_float64 (j : nat) (data : list (list pynum)) : bool :=
  existsb is_float (column_of j data) && forallb float64_able (column_of j data).

Definition stored (data : list (list pynum)) (j : nat) (v : pynum) : pyobj :=
  match v with
  | PyInt n => if becomes_float64 j data then Num (PyFloat (PyFloat.const n)) else Num v
  | PyFloat _ => Num v
  end.

(** [pd.DataFrame(data, columns=cols)] for a list of rows: every row must
    have as many items as there are labels. *)
Definition DataFrame_of_rows (data : list (list pynum)) (cols : list string)
  : result DataFrame :=
  if forallb (fun r => Nat.eqb (List.length r) (List.length cols)) data then
    Ok {| columns := cols;
          rows := map (fun r => map (fun jv => stored data (fst jv) (snd jv)) (enumerate r)) data |}
  else Raise ValueError.

(** [df.insert(0, column, value)] with a value indexed [0 .. n-1] as the
    frame is: a label already present is refused, otherwise the column
    becomes the first one. *)
Definition insert_first (df : DataFrame) (column : string) (value : list pyobj)
  : result DataFrame :=
  if existsb (String.eqb column) (columns df) then Raise ValueError
  else Ok {| columns := column :: columns df;
             rows := map (fun vr => fst vr :: snd vr) (combine value (rows df)) |}.

(** Lines 53-86: from the parsed table, the valuation date and the
    escalation percentage to the cash flow table. *)
Definition project (libm_pow : float -> float -> float)
  (df : list LeaseRow) (valuation_date_input : date) (escalation_percent : float)
  : result DataFrame :=
  let years := years_of valuation_date_input in
  matrix <- cashflow_matrix libm_pow escalation_percent df years ;;
  cashflow_df <- DataFrame_of_rows matrix (map str years) ;;
  insert_first cashflow_df "Tenant" (map (fun r => Str (Tenant r)) df).

(** ** The three regimes of a year (the tests of lines 68 and 72) *)

Inductive regime : Type :=
| Reversion
| NotStarted
| InTerm.

Definition classify (row : LeaseRow) (year : Z) : regime :=
  if Lease_End row <? Calendar.start_of_year year then Reversion
  else if Lease_Start row >? Calendar.end_of_year year then NotStarted
  else InTerm.

(** ** Comparing numbers *)

(** The exact comparison of an integer with the value of a float, as
    Python compares an [int] with a [float]. *)
Definition Z_compare_SF (n : Z) (x : spec_float) : option comparison :=
  match x with
  | S754_nan => None
  | S754_infinity s => Some (if s then Gt else Lt)
  | S754_zero _ => Some (n ?= 0)
  | S754_finite s m e =>
      let v := if s then Zneg m else Zpos m in
      Some match e with
           | Zneg k => (n * 2 ^ Zpos k ?= v)
           | _ => (n ?= v * 2 ^ e)
           end
  end.

(** [a <= b] *)
Definition py_le (a b : pynum) : bool :=
  match a, b with
  | PyInt m, PyInt n => m <=? n
  | PyFloat x, PyFloat y => (x <=? y)%float
  | PyInt m, PyFloat y =>
      match Z_compare_SF m (Prim2SF y) with
      | Some Lt | Some Eq => true
      | _ => false
      end
  | PyFloat x, PyInt n =>
      match Z_compare_SF n (Prim2SF x) with
      | Some Gt | Some Eq => true
      | _ => false
      end
  end.


(** The test that [k / n] is a float in the interval (0, 1]. *)
Definition proper_fraction (n k : Z) : bool :=
  match PyFloat.int_true_div k n with
  | Ok f => ((0 <? f) && (f <=? 1))%float
  | Raise _ => false
  end.

(** ** What the arithmetic is to return *)

(** The float of a small non-negative integer, by the primitive
    conversion. *)
Definition float_of_Z (n : Z) : float := of_uint63 (Uint63.of_Z n).

(** [x] is the float Python takes for the rent [a]: the rent itself when
    it is a float, the nearest float when it is an [int] (and the
    primitive conversion of it, in the range of that conversion). *)
Definition converts_to (a : pynum) (x : float) : Prop :=
  match a with
  | PyFloat y => x = y
  | PyInt n =>
      x = SF2Prim (binary_normalize prec emax n 0 false)
      /\ (0 <= n < 2 ^ 63 -> x = float_of_Z n)
  end.

(** [g] is [base ** i]: 1.0 for the exponent 0 and for the base 1.0, and
    what the C library returns for the base and the float of [i] when the
    base is a finite float above 1.0. *)
Definition compounds (libm_pow : float -> float -> float) (base : float) (i : nat)
  (g : float) : Prop :=
  (i = 0%nat -> g = 1%float)
  /\ (base = 1%float -> g = 1%float)
  /\ ((1 <? base)%float = true -> (base <? infinity)%float = true -> (0 < i)%nat ->
      g = libm_pow base (float_of_Z (Z.of_nat i))).

(** [N] is the integer nearest to [100 * m * 2^e], the even one when two
    are as near. *)
Definition nearest_hundredths (m : positive) (e : Z) (N : Z) : Prop :=
  0 <= N
  /\ match e with
     | Zneg k =>
         let err := N * 2 ^ Zpos k - 100 * Zpos m in
         2 * Z.abs err <= 2 ^ Zpos k
         /\ (2 * Z.abs err = 2 ^ Zpos k -> Z.even N = true)
     | _ => N = 100 * Zpos m * 2 ^ e
     end.

(** The integer [N] with the sign [s], as an exact binary number. *)
Definition signed_int (s : bool) (N : Z) : spec_float :=
  match N with
  | Zpos p => S754_finite s p 0
  | _ => S754_zero s
  end.

(** [r] is [x] rounded to two decimals: for a finite [x], the binary64
    quotient by 100 of the integer nearest to [100 * |x|], with the sign
    of [x]; [x] itself otherwise. *)
Definition rounded_to_cents (x r : float) : Prop :=
  match Prim2SF x with
  | S754_finite s m e =>
      exists N, nearest_hundredths m e N
                /\ r = SF2Prim (SFdiv prec emax (signed_int s N) (S754_finite false 100 0))
  | _ => r = x
  end.

(** The test that the quotient of the integers [k] and [n] is the
    primitive quotient of their floats. *)
Definition quotient_agrees (n k : Z) : bool :=
  match PyFloat.int_true_div k n with
  | Ok f => PrimFloat.Leibniz.eqb f (float_of_Z k / float_of_Z n)%float
  | Raise _ => false
  end.

(** ** Real values of binary numbers

    The comparison of two rounded products needs the real numbers the
    Standard Library's rounding works on. *)

(** The real power of two. *)
Definition bpow (e : Z) : R := powerRZ 2 e.

(** [located m e v l]: the real [v] lies in [m * 2^e, (m+1) * 2^e), at the
    place the location [l] tells: on the left end, below, at or above the
    middle. *)
Definition located (m e : Z) (v : R) (l : location) : Prop :=
  match l with
  | loc_Exact => (v = IZR m * bpow e)%R
  | loc_Inexact Lt => (IZR m * bpow e < v /\ 2 * v < (2 * IZR m + 1) * bpow e)%R
  | loc_Inexact Eq => (2 * v = (2 * IZR m + 1) * bpow e)%R
  | loc_Inexact Gt => ((2 * IZR m + 1) * bpow e < 2 * v /\ v < (IZR m + 1) * bpow e)%R
  end.

(** What rounding returns for the integer [N] at the exponent [E]: the
    float [N * 2^E], renormalised when [N] is [2^53], infinite when the
    exponent is too large. *)
Definition pack (s : bool) (N E : Z) : spec_float :=
  match N with
  | Z0 => S754_zero s
  | Zpos p => if E <=? 971 then S754_finite s p E else S754_infinity s
  | Zneg _ => S754_nan
  end.

Definition finish (s : bool) (N E : Z) : spec_float :=
  if N =? 9007199254740992 then pack s 4503599627370496 (E + 1) else pack s N E.

(** The real number a positive finite float denotes. *)
Definition SF_value (m : positive) (e : Z) : R := (IZR (Zpos m) * bpow e)%R.


(** A float that is at least zero. *)
Definition SF_nonneg (x : spec_float) : Prop := SFleb (S754_zero false) x = true.


(** ** Example data *)

Module Examples.

Local Open Scope string_scope.

Definition on (y m d : Z) : Calendar.Timestamp := Calendar.Timestamp_of_date y m d.

(** The first row of the sample sheet (lines 12-18). *)
Definition tenant_A : LeaseRow :=
  {| Tenant := "Tenant A"; Lease_Start := on 2023 1 1; Lease_End := on 2027 12 31;
     Passing_Rent := PyInt 100000; Market_Rent := PyInt 120000 |}.

(** A lease that ended before 2025. *)
Definition expired : LeaseRow :=
  {| Tenant := "Tenant D"; Lease_Start := on 2015 1 1; Lease_End := on 2020 12 31;
     Passing_Rent := PyInt 80000; Market_Rent := PyInt 95000 |}.

(** A lease that ends in the middle of 2025. *)
Definition mid_year : LeaseRow :=
  {| Tenant := "Tenant B"; Lease_Start := on 2023 1 1; Lease_End := on 2025 6 30;
     Passing_Rent := PyInt 100000; Market_Rent := PyInt 120000 |}.


(** A lease that starts after the ten years. *)
Definition future : LeaseRow :=
  {| Tenant := "Tenant F"; Lease_Start := on 2040 1 1; Lease_End := on 2044 12 31;
     Passing_Rent := PyInt 100000; Market_Rent := PyInt 120000 |}.

(** The second and the third row of the sample sheet. *)
Definition sample_B : LeaseRow :=
  {| Tenant := "Tenant B"; Lease_Start := on 2024 6 1; Lease_End := on 2029 5 31;
     Passing_Rent := PyInt 120000; Market_Rent := PyInt 140000 |}.

Definition sample_C : LeaseRow :=
  {| Tenant := "Tenant C"; Lease_Start := on 2025 1 1; Lease_End := on 2035 12 31;
     Passing_Rent := PyInt 90000; Market_Rent := PyInt 95000 |}.

Definition valuation_2025 : date := {| year := 2025; month := 11; day := 4 |}.

(** The cells of a row, when the row computes. *)
Definition cells_of (escalation_percent : float) (row : LeaseRow) : list pynum :=
  match tenant_row ReferenceLibm.pow escalation_percent (years_of valuation_2025) row with
  | Ok cells => cells
  | Raise _ => []
  end.

End Examples.

(** * Properties *)

(** ** The error monad and the loops *)

Lemma bind_Ok {A B : Type} (c : result A) (k : A -> result B) (b : B) :
  (x <- c ;; k x) = Ok b -> exists a, c = Ok a /\ k a = Ok b.
Proof.
  destruct c as [a|e]; simpl; intros H; [exists a; auto | discriminate].
Qed.

Lemma mapM_length {A B : Type} (f : A -> result B) (l : list A) (bs : list B) :
  mapM f l = Ok bs -> List.length bs = List.length l.
Proof.
  revert bs; induction l as [|a l IH]; simpl; intros bs H.
  - injection H as <-; reflexivity.
  - apply bind_Ok in H as (b & _ & H).
    apply bind_Ok in H as (bs' & Hbs & H).
    injection H as <-; simpl; f_equal; auto.
Qed.

Lemma mapM_nth_error {A B : Type} (f : A -> result B) (l : list A) (bs : list B) :
  mapM f l = Ok bs ->
  forall i a, nth_error l i = Some a ->
  exists b, f a = Ok b /\ nth_error bs i = Some b.
Proof.
  revert bs; induction l as [|x l IH]; simpl; intros bs H i a Hi.
  - destruct i; discriminate.
  - apply bind_Ok in H as (b & Hb & H).
    apply bind_Ok in H as (bs' & Hbs & H).
    injection H as <-.
    destruct i as [|i]; simpl in *.
    + injection Hi as <-; eauto.
    + eapply IH; eauto.
Qed.

Lemma mapM_all_Ok {A B : Type} (f : A -> result B) (g : A -> B) (l : list A) :
  (forall a, In a l -> f a = Ok (g a)) -> mapM f l = Ok (map g l).
Proof.
  induction l as [|x l IH]; simpl; intros H; [reflexivity|].
  rewrite (H x) by auto; simpl.
  rewrite IH by auto; reflexivity.
Qed.

Lemma enumerate_nth_error_from {A : Type} (l : list A) (s i : nat) (a : A) :
  nth_error l i = Some a ->
  nth_error (combine (seq s (List.length l)) l) i = Some ((s + i)%nat, a).
Proof.
  revert s i; induction l as [|x l IH]; intros s i H.
  - destruct i; discriminate.
  - destruct i as [|i]; simpl in *.
    + injection H as <-; rewrite Nat.add_0_r; reflexivity.
    + rewrite (IH (S s) i H); f_equal; f_equal; lia.
Qed.

Lemma enumerate_nth_error {A : Type} (l : list A) (i : nat) (a : A) :
  nth_error l i = Some a -> nth_error (enumerate l) i = Some (i, a).
Proof.
  intros H; unfold enumerate; rewrite (enumerate_nth_error_from l 0 i a H); reflexivity.
Qed.

Lemma enumerate_length {A : Type} (l : list A) :
  List.length (enumerate l) = List.length l.
Proof.
  unfold enumerate; rewrite length_combine, length_seq; lia.
Qed.

(** ** The projection years *)

Lemma years_of_unfold (d : date) :
  years_of d =
  [year d + 0; year d + 1; year d + 2; year d + 3; year d + 4;
   year d + 5; year d + 6; year d + 7; year d + 8; year d + 9].
Proof.
  unfold years_of, range.
  replace (year d + 10 - year d) with 10 by lia.
  reflexivity.
Qed.

Lemma years_of_nth_error (d : date) (i : nat) :
  (i < 10)%nat -> nth_error (years_of d) i = Some (year d + Z.of_nat i).
Proof.
  intros Hi; rewrite years_of_unfold.
  do 10 (destruct i as [|i]; [reflexivity|]); lia.
Qed.

Lemma tenant_row_nth_error libm_pow escalation_percent (d : date) (row : LeaseRow)
  (cells : list pynum) (i : nat) :
  tenant_row libm_pow escalation_percent (years_of d) row = Ok cells ->
  (i < 10)%nat ->
  exists c, cell libm_pow escalation_percent row i (year d + Z.of_nat i) = Ok c
            /\ nth_error cells i = Some c.
Proof.
  intros H Hi; unfold tenant_row in H.
  apply (mapM_nth_error _ _ _ H i (i, year d + Z.of_nat i)).
  apply enumerate_nth_error, years_of_nth_error, Hi.
Qed.

(** ** The three branches of the inner loop *)

Section Branches.

Variable libm_pow : float -> float -> float.
Variable escalation_percent : float.

Lemma cell_reversion (row : LeaseRow) (i : nat) (year : Z) (c : pynum) :
  Lease_End row < Calendar.start_of_year year ->
  cell libm_pow escalation_percent row i year = Ok c ->
  exists growth market_rent,
    escalation libm_pow escalation_percent i = Ok growth
    /\ PyFloat.to_float (Market_Rent row) = Ok market_rent
    /\ c = PyFloat (PyFloat.round2 (market_rent * growth)%float).
Proof.
  intros Hend H; unfold cell in H.
  apply Z.ltb_lt in Hend; rewrite Hend in H.
  apply bind_Ok in H as (growth & Hg & H).
  apply bind_Ok in H as (annual & Ha & H).
  unfold PyFloat.mul in Ha.
  apply bind_Ok in Ha as (market & Hm & Ha).
  injection Ha as <-; injection H as <-.
  exists growth, market; auto.
Qed.

Lemma cell_not_started (row : LeaseRow) (i : nat) (year : Z) :
  ~ Lease_End row < Calendar.start_of_year year ->
  Lease_Start row > Calendar.end_of_year year ->
  cell libm_pow escalation_percent row i year = Ok (PyInt 0).
Proof.
  intros Hend Hstart; unfold cell.
  apply Z.ltb_nlt in Hend; rewrite Hend.
  apply Z.gtb_gt in Hstart; rewrite Hstart.
  reflexivity.
Qed.

Lemma cell_in_term (row : LeaseRow) (i : nat) (year : Z) (c : pynum) :
  ~ Lease_End row < Calendar.start_of_year year ->
  ~ Lease_Start row > Calendar.end_of_year year ->
  cell libm_pow escalation_percent row i year = Ok c ->
  exists growth passing_rent fraction,
    escalation libm_pow escalation_percent i = Ok growth
    /\ PyFloat.to_float (Passing_Rent row) = Ok passing_rent
    /\ PyFloat.int_true_div (days_covered row year) (days_in_year year) = Ok fraction
    /\ c = PyFloat (PyFloat.round2 (passing_rent * growth * fraction)%float).
Proof.
  intros Hend Hstart H; unfold cell in H.
  apply Z.ltb_nlt in Hend; rewrite Hend in H.
  assert (Hs : (Lease_Start row >? Calendar.end_of_year year) = false).
  { destruct (Lease_Start row >? Calendar.end_of_year year) eqn:E; [|reflexivity].
    apply Z.gtb_gt in E; contradiction. }
  rewrite Hs in H.
  apply bind_Ok in H as (growth & Hg & H).
  apply bind_Ok in H as (annual & Ha & H).
  apply bind_Ok in H as (fraction & Hf & H).
  unfold PyFloat.mul in Ha.
  apply bind_Ok in Ha as (passing & Hp & Ha).
  injection Ha as <-; injection H as <-.
  exists growth, passing, fraction; auto.
Qed.

End Branches.

(** ** The length of a year *)

Lemma days_before_month_december (y : Z) :
  Calendar.days_before_month y 12 = if Calendar.is_leap y then 335 else 334.
Proof.
  unfold Calendar.days_before_month.
  change (Z.to_nat (12 - 1)) with 11%nat.
  cbn [seq map fold_right]; unfold Calendar.days_in_month.
  destruct (Calendar.is_leap y); reflexivity.
Qed.

Lemma year_span (y : Z) :
  Calendar.end_of_year y - Calendar.start_of_year y =
  (if Calendar.is_leap y then 365 else 364) * Calendar.ns_per_day.
Proof.
  unfold Calendar.end_of_year, Calendar.start_of_year, Calendar.Timestamp_of_date,
    Calendar.ordinal.
  rewrite days_before_month_december.
  change (Calendar.days_before_month y 1) with 0.
  destruct (Calendar.is_leap y); lia.
Qed.

Lemma days_in_year_leap (y : Z) :
  days_in_year y = if Calendar.is_leap y then 366 else 365.
Proof.
  unfold days_in_year, Calendar.Timedelta_days; rewrite year_span.
  rewrite Z.div_mul by (unfold Calendar.ns_per_day; lia).
  destruct (Calendar.is_leap y); reflexivity.
Qed.

Lemma days_in_year_cases (y : Z) : days_in_year y = 365 \/ days_in_year y = 366.
Proof.
  rewrite days_in_year_leap; destruct (Calendar.is_leap y); auto.
Qed.

(** ** The claims *)

Set Warnings "-inexact-float".

(** C3. In a projection year that ends before the lease starts (and that
    the lease has not ended before), the cell is the integer [0]: no
    float, no rounding, and no escalation, whatever the rents, the
    escalation percentage and the C library are. *)
Theorem C3_not_started_cell :
  forall libm_pow escalation_percent (valuation_date : date) (row : LeaseRow)
         (cells : list pynum) (i : nat),
    let y := year valuation_date + Z.of_nat i in
    tenant_row libm_pow escalation_percent (years_of valuation_date) row = Ok cells ->
    (i < 10)%nat ->
    ~ Lease_End row < Calendar.start_of_year y ->
    Lease_Start row > Calendar.end_of_year y ->
    nth_error cells i = Some (PyInt 0)
    /\ forall libm_pow' escalation_percent',
         cell libm_pow' escalation_percent' row i y = Ok (PyInt 0).
Proof.
  intros libm_pow esc d row cells i y Hrow Hi Hend Hstart.
  destruct (tenant_row_nth_error _ _ _ _ _ _ Hrow Hi) as (c & Hc & Hnth).
  fold y in Hc; rewrite (cell_not_started _ _ _ _ _ Hend Hstart) in Hc.
  injection Hc as <-; split; [assumption|].
  intros; apply cell_not_started; assumption.
Qed.

Lemma C3_not_started_cell_witness :
  nth_error (Examples.cells_of 5 Examples.future) 7 = Some (PyInt 0)
  /\ forall libm_pow' escalation_percent',
       cell libm_pow' escalation_percent' Examples.future 7 2032 = Ok (PyInt 0).
Proof.
  apply (C3_not_started_cell ReferenceLibm.pow 5%float Examples.valuation_2025
           Examples.future (Examples.cells_of 5 Examples.future) 7).
  - vm_compute; reflexivity.
  - lia.
  - vm_compute; discriminate.
  - vm_compute; reflexivity.
Defined.

(** C4. The projection years are the ten consecutive years that start at
    the year of the valuation date, in increasing order; nothing but the
    year of the date is used, and the list is produced for every date. *)
Theorem C4_projection_years :
  forall d : date,
    years_of d = map (fun k => year d + k) [0; 1; 2; 3; 4; 5; 6; 7; 8; 9]
    /\ List.length (years_of d) = 10%nat
    /\ nth_error (years_of d) 0 = Some (year d)
    /\ (forall i y z, nth_error (years_of d) i = Some y ->
                      nth_error (years_of d) (S i) = Some z -> z = y + 1)
    /\ (forall i j y z, (i < j)%nat -> nth_error (years_of d) i = Some y ->
                        nth_error (years_of d) j = Some z -> y < z)
    /\ (forall d', year d' = year d -> years_of d' = years_of d).
Proof.
  intros d.
  assert (Hlen : List.length (years_of d) = 10%nat)
    by (rewrite years_of_unfold; reflexivity).
  assert (Hnth : forall i y, nth_error (years_of d) i = Some y ->
                             (i < 10)%nat /\ y = year d + Z.of_nat i).
  { intros i y H.
    assert (Hi : (i < 10)%nat)
      by (rewrite <- Hlen; apply nth_error_Some; rewrite H; discriminate).
    rewrite (years_of_nth_error d i Hi) in H; injection H as <-; auto. }
  split; [apply years_of_unfold|].
  split; [exact Hlen|].
  split; [rewrite years_of_unfold; simpl; f_equal; lia|].
  split; [|split].
  - intros i y z Hy Hz.
    apply Hnth in Hy as (_ & ->); apply Hnth in Hz as (_ & ->); lia.
  - intros i j y z Hij Hy Hz.
    apply Hnth in Hy as (_ & ->); apply Hnth in Hz as (_ & ->); lia.
  - intros d' H; unfold years_of; rewrite H; reflexivity.
Qed.

(** ** The shape of the matrix and of the table *)

Lemma tenant_row_length libm_pow escalation_percent (years : list Z) (row : LeaseRow)
  (cells : list pynum) :
  tenant_row libm_pow escalation_percent years row = Ok cells ->
  List.length cells = List.length years.
Proof.
  intros H; apply mapM_length in H; rewrite H; apply enumerate_length.
Qed.

Lemma mapM_In {A B : Type} (f : A -> result B) (l : list A) (bs : list B) (b : B) :
  mapM f l = Ok bs -> In b bs -> exists a, In a l /\ f a = Ok b.
Proof.
  revert bs; induction l as [|x l IH]; simpl; intros bs H Hb.
  - injection H as <-; contradiction.
  - apply bind_Ok in H as (b0 & Hb0 & H).
    apply bind_Ok in H as (bs' & Hbs & H).
    injection H as <-.
    destruct Hb as [<-|Hb]; [exists x; auto|].
    destruct (IH _ Hbs Hb) as (a & Ha & Hfa); exists a; auto.
Qed.

Lemma str_not_Tenant (n : Z) : str n <> "Tenant"%string.
Proof.
  unfold str; destruct (Z.to_int n) as [u|u]; destruct u; simpl; discriminate.
Qed.

Lemma Tenant_not_a_year (years : list Z) :
  existsb (String.eqb "Tenant") (map str years) = false.
Proof.
  induction years as [|y l IH]; cbn [existsb map]; [reflexivity|].
  rewrite IH, orb_false_r.
  apply String.eqb_neq; intros H; exact (str_not_Tenant y (eq_sym H)).
Qed.


(** The table is built whenever the matrix is: neither the constructor nor
    the insertion of the tenant column can fail. *)
Lemma project_unfold libm_pow (df : list LeaseRow) (d : date) (escalation_percent : float) :
  project libm_pow df d escalation_percent =
  (matrix <- cashflow_matrix libm_pow escalation_percent df (years_of d) ;;
   Ok {| columns := "Tenant"%string :: map str (years_of d);
         rows := map (fun vr => fst vr :: snd vr)
                   (combine (map (fun r => Str (Tenant r)) df)
                      (map (fun r => map (fun jv => stored matrix (fst jv) (snd jv))
                                       (enumerate r)) matrix)) |}).
Proof.
  unfold project.
  destruct (cashflow_matrix libm_pow escalation_percent df (years_of d))
    as [matrix|e] eqn:Hm; simpl; [|reflexivity].
  unfold DataFrame_of_rows.
  assert (Hall : forallb (fun r => Nat.eqb (List.length r)
                                     (List.length (map str (years_of d)))) matrix = true).
  { apply forallb_forall; intros r Hr.
    destruct (mapM_In _ _ _ _ Hm Hr) as (row & _ & Hrow).
    apply tenant_row_length in Hrow.
    rewrite length_map, Hrow; apply Nat.eqb_refl. }
  rewrite Hall; simpl.
  unfold insert_first; simpl.
  rewrite Tenant_not_a_year; reflexivity.
Qed.




(** ** Facts of binary64 arithmetic *)

Lemma shr_52_zeros (m : positive) (e : Z) :
  shr {| shr_m := Zpos (Pos.iter xO m 52); shr_r := false; shr_s := false |} e 52
  = ({| shr_m := Zpos m; shr_r := false; shr_s := false |}, e + 52).
Proof. reflexivity. Qed.

Lemma digits2_shift_52 (m : positive) :
  digits2_pos (Pos.iter xO m 52) = (digits2_pos m + 52)%positive.
Proof. cbn [Pos.iter digits2_pos]; lia. Qed.

Lemma shr_fexp_canonical (m : positive) (e : Z) :
  fexp prec emax (Z.pos (digits2_pos m) + e) = e ->
  shr_fexp prec emax (Zpos m) e loc_Exact
  = ({| shr_m := Zpos m; shr_r := false; shr_s := false |}, e).
Proof.
  intros Hc; unfold shr_fexp, Zdigits2; rewrite Hc, Z.sub_diag; reflexivity.
Qed.

Lemma SFmul_one_r (x : spec_float) :
  valid_binary x = true -> SFmul prec emax x (Prim2SF 1) = x.
Proof.
  intros Hv.
  change (Prim2SF 1) with (S754_finite false 4503599627370496 (-52)).
  destruct x as [s|s| |s m e]; simpl; try reflexivity; try (destruct s; reflexivity).
  unfold valid_binary, bounded, canonical_mantissa in Hv.
  apply andb_true_iff in Hv as [Hc He].
  apply Z.eqb_eq in Hc.
  rewrite xorb_false_r.
  replace (m * 4503599627370496)%positive with (Pos.iter xO m 52)
    by (cbn [Pos.iter]; lia).
  unfold binary_round_aux.
  assert (H1 : shr_fexp prec emax (Zpos (Pos.iter xO m 52)) (e + -52) loc_Exact
               = ({| shr_m := Zpos m; shr_r := false; shr_s := false |}, e)).
  { unfold shr_fexp, Zdigits2; rewrite digits2_shift_52.
    replace (Z.pos (digits2_pos m + 52) + (e + -52)) with (Z.pos (digits2_pos m) + e) by lia.
    rewrite Hc.
    replace (e - (e + -52)) with 52 by lia.
    cbn [shr_record_of_loc]; rewrite shr_52_zeros; f_equal; lia. }
  rewrite H1; cbn [shr_m loc_of_shr_record round_nearest_even].
  rewrite (shr_fexp_canonical m e Hc); cbn [shr_m].
  rewrite He; reflexivity.
Qed.

(** Multiplying a float by 1.0 returns it, whatever it is. *)
Lemma mul_one_r (x : float) : (x * 1)%float = x.
Proof.
  apply Prim2SF_inj; rewrite mul_spec; apply SFmul_one_r, Prim2SF_valid.
Qed.

(** ** Days of the overlap *)

Lemma start_before_end_of_year (y : Z) : Calendar.start_of_year y <= Calendar.end_of_year y.
Proof.
  pose proof (year_span y) as H.
  destruct (Calendar.is_leap y); unfold Calendar.ns_per_day in H; lia.
Qed.

Lemma days_covered_full_year (row : LeaseRow) (y : Z) :
  Lease_Start row <= Calendar.start_of_year y ->
  Lease_End row >= Calendar.end_of_year y ->
  days_covered row y = days_in_year y.
Proof.
  intros Hs He; unfold days_covered, days_in_year.
  rewrite Z.max_l, Z.min_l by lia; reflexivity.
Qed.

Lemma days_covered_bounds (row : LeaseRow) (y : Z) :
  Lease_Start row <= Lease_End row ->
  ~ Lease_End row < Calendar.start_of_year y ->
  ~ Lease_Start row > Calendar.end_of_year y ->
  1 <= days_covered row y <= days_in_year y.
Proof.
  intros Hle Hend Hstart.
  pose proof (start_before_end_of_year y) as Hy.
  unfold days_covered, days_in_year, Calendar.Timedelta_days.
  assert (Hns : 0 < Calendar.ns_per_day) by (unfold Calendar.ns_per_day; lia).
  split.
  - assert (0 <= (Z.min (Calendar.end_of_year y) (Lease_End row)
                  - Z.max (Calendar.start_of_year y) (Lease_Start row))
                 / Calendar.ns_per_day); [|lia].
    apply Z.div_pos; lia.
  - apply Z.add_le_mono_r, Z.div_le_mono; lia.
Qed.

Lemma proper_fractions_365 :
  forallb (fun k => proper_fraction 365 (Z.of_nat k)) (seq 1 365) = true.
Proof. vm_compute; reflexivity. Qed.

Lemma proper_fractions_366 :
  forallb (fun k => proper_fraction 366 (Z.of_nat k)) (seq 1 366) = true.
Proof. vm_compute; reflexivity. Qed.

Lemma proper_fraction_of_days (n k : Z) :
  n = 365 \/ n = 366 -> 1 <= k <= n -> proper_fraction n k = true.
Proof.
  intros Hn Hk.
  rewrite <- (Z2Nat.id k) by lia.
  destruct Hn as [-> | ->].
  - apply (proj1 (forallb_forall _ _) proper_fractions_365 (Z.to_nat k)).
    apply in_seq; lia.
  - apply (proj1 (forallb_forall _ _) proper_fractions_366 (Z.to_nat k)).
    apply in_seq; lia.
Qed.

Lemma whole_year_fraction (n : Z) :
  n = 365 \/ n = 366 -> PyFloat.int_true_div n n = Ok 1%float.
Proof. intros [-> | ->]; vm_compute; reflexivity. Qed.

Lemma classify_InTerm (row : LeaseRow) (y : Z) :
  classify row y = InTerm <->
  ~ Lease_End row < Calendar.start_of_year y /\ ~ Lease_Start row > Calendar.end_of_year y.
Proof.
  unfold classify.
  destruct (Lease_End row <? Calendar.start_of_year y) eqn:E1.
  - apply Z.ltb_lt in E1; split; [discriminate | intros [H _]; contradiction].
  - apply Z.ltb_nlt in E1.
    destruct (Lease_Start row >? Calendar.end_of_year y) eqn:E2.
    + apply Z.gtb_gt in E2; split; [discriminate | intros [_ H]; contradiction].
    + split; [intros _; split; [assumption|] | reflexivity].
      intros H; apply Z.gtb_gt in H; congruence.
Qed.

(** C9. Scenario B: valuation year 2025, escalation 10 percent, a lease
    running since January 1, 2025 or before and ending on June 30, 2025,
    passing rent 100000.  The 181 days from January 1 to June 30 are
    covered out of 365, [1.10 ** 0] is 1.0, and the cell of 2025 is
    [round(100000 * 1.0 * (181 / 365), 2)], which is 49589.04. *)
Theorem C9_scenario_B :
  forall libm_pow (valuation_date : date) (row : LeaseRow) (cells : list pynum),
    year valuation_date = 2025 ->
    Lease_Start row <= Calendar.Timestamp_of_date 2025 1 1 ->
    Lease_End row = Calendar.Timestamp_of_date 2025 6 30 ->
    Passing_Rent row = PyInt 100000 ->
    tenant_row libm_pow 10 (years_of valuation_date) row = Ok cells ->
    days_covered row 2025 = 181
    /\ days_in_year 2025 = 365
    /\ escalation libm_pow 10 0 = Ok 1%float
    /\ PyFloat.int_true_div 181 365 = Ok (181 / 365)%float
    /\ nth_error cells 0
       = Some (PyFloat (PyFloat.round2 (100000 * 1 * (181 / 365))%float))
    /\ PyFloat.round2 (100000 * 1 * (181 / 365))%float = 49589.04%float.
Proof.
  intros libm_pow d row cells Hyear Hs He Hp Hrow.
  assert (Hdays : days_covered row 2025 = 181).
  { unfold days_covered; rewrite He.
    change (Calendar.start_of_year 2025) with (Calendar.Timestamp_of_date 2025 1 1).
    rewrite Z.max_l by lia.
    vm_compute; reflexivity. }
  split; [exact Hdays|].
  split; [vm_compute; reflexivity|].
  split; [reflexivity|].
  split; [vm_compute; reflexivity|].
  split; [|vm_compute; reflexivity].
  destruct (tenant_row_nth_error _ _ _ _ _ 0%nat Hrow) as (c & Hc & Hnth); [lia|].
  rewrite Hyear in Hc; change (2025 + Z.of_nat 0) with 2025 in Hc.
  destruct (cell_in_term libm_pow 10%float row 0 2025 c) as
    (growth & passing & fraction & Hg & Hpass & Hf & ->).
  - rewrite He; vm_compute; discriminate.
  - change (Calendar.end_of_year 2025) with (Calendar.Timestamp_of_date 2025 12 31).
    assert (Calendar.Timestamp_of_date 2025 1 1 <= Calendar.Timestamp_of_date 2025 12 31)
      by (vm_compute; discriminate).
    lia.
  - exact Hc.
  - rewrite Hp in Hpass; vm_compute in Hpass; injection Hpass as <-.
    rewrite Hdays in Hf; vm_compute in Hf; injection Hf as <-.
    change (escalation libm_pow 10 0) with (@Ok float 1%float) in Hg.
    injection Hg as <-.
    exact Hnth.
Qed.

Lemma C9_scenario_B_witness :
  days_covered Examples.mid_year 2025 = 181
  /\ days_in_year 2025 = 365
  /\ escalation ReferenceLibm.pow 10 0 = Ok 1%float
  /\ PyFloat.int_true_div 181 365 = Ok (181 / 365)%float
  /\ nth_error (Examples.cells_of 10 Examples.mid_year) 0
     = Some (PyFloat (PyFloat.round2 (100000 * 1 * (181 / 365))%float))
  /\ PyFloat.round2 (100000 * 1 * (181 / 365))%float = 49589.04%float.
Proof.
  apply (C9_scenario_B ReferenceLibm.pow Examples.valuation_2025 Examples.mid_year
           (Examples.cells_of 10 Examples.mid_year)).
  - reflexivity.
  - vm_compute; discriminate.
  - reflexivity.
  - reflexivity.
  - vm_compute; reflexivity.
Defined.

(** C10. When the lease starts no later than it ends and a year falls in
    the in-term branch, the overlap is not empty: the period starts no
    later than it ends, the days covered are between 1 and the days of the
    year, which are 365 or 366 and so never zero, the division raises no
    exception, and its result is a float greater than 0 and at most 1. *)
Theorem C10_proration_is_proper :
  forall (row : LeaseRow) (y : Z),
    Lease_Start row <= Lease_End row ->
    classify row y = InTerm ->
    Z.max (Calendar.start_of_year y) (Lease_Start row)
      <= Z.min (Calendar.end_of_year y) (Lease_End row)
    /\ 1 <= days_covered row y <= days_in_year y
    /\ (days_in_year y = 365 \/ days_in_year y = 366)
    /\ exists fraction,
         PyFloat.int_true_div (days_covered row y) (days_in_year y) = Ok fraction
         /\ (0 <? fraction)%float = true
         /\ (fraction <=? 1)%float = true.
Proof.
  intros row y Hle Hclass.
  apply classify_InTerm in Hclass as (Hend & Hstart).
  pose proof (start_before_end_of_year y) as Hy.
  pose proof (days_covered_bounds row y Hle Hend Hstart) as Hdays.
  pose proof (days_in_year_cases y) as Hn.
  split; [lia|]; split; [exact Hdays|]; split; [exact Hn|].
  pose proof (proper_fraction_of_days _ _ Hn Hdays) as Hfrac.
  unfold proper_fraction in Hfrac.
  destruct (PyFloat.int_true_div (days_covered row y) (days_in_year y)) as [f|e];
    [|discriminate].
  apply andb_true_iff in Hfrac as (H0 & H1).
  exists f; auto.
Qed.

Lemma C10_proration_is_proper_witness :
  Z.max (Calendar.start_of_year 2025) (Lease_Start Examples.mid_year)
    <= Z.min (Calendar.end_of_year 2025) (Lease_End Examples.mid_year)
  /\ 1 <= days_covered Examples.mid_year 2025 <= days_in_year 2025
  /\ (days_in_year 2025 = 365 \/ days_in_year 2025 = 366)
  /\ exists fraction,
       PyFloat.int_true_div (days_covered Examples.mid_year 2025) (days_in_year 2025)
       = Ok fraction
       /\ (0 <? fraction)%float = true
       /\ (fraction <=? 1)%float = true.
Proof.
  apply (C10_proration_is_proper Examples.mid_year 2025).
  - vm_compute; discriminate.
  - vm_compute; reflexivity.
Defined.


(** ** The calendar is monotone *)

Lemma days_before_year_mono (y z : Z) :
  y <= z -> Calendar.days_before_year y <= Calendar.days_before_year z.
Proof.
  intros H; unfold Calendar.days_before_year.
  Z.to_euclidean_division_equations; lia.
Qed.

Lemma start_of_year_mono (y z : Z) :
  y <= z -> Calendar.start_of_year y <= Calendar.start_of_year z.
Proof.
  intros H; apply days_before_year_mono in H.
  unfold Calendar.start_of_year, Calendar.Timestamp_of_date, Calendar.ordinal,
    Calendar.ns_per_day.
  change (Calendar.days_before_month y 1) with 0.
  change (Calendar.days_before_month z 1) with 0.
  lia.
Qed.

Lemma float_neq (x y : float) : (x =? y)%float = false -> (x =? x)%float = true -> x <> y.
Proof. intros Hxy Hxx E; rewrite <- E, Hxx in Hxy; discriminate. Qed.

(** C8 (as the code behaves). Scenario D: a lease that ended before the
    first projection year, market rent 95000, escalation 5 percent.  With
    a C library whose [pow(1.05, 3.0)] is the correctly rounded
    1.1576250000000001, the cell at offset 3 is
    [round(95000 * 1.05 ** 3, 2) = round(109974.37500000001, 2) = 109974.38]. *)
Theorem C8_scenario_D :
  forall libm_pow (valuation_date : date) (row : LeaseRow) (cells : list pynum),
    libm_pow 1.05%float 3%float = 1.1576250000000001%float ->
    Lease_End row < Calendar.start_of_year (year valuation_date) ->
    Market_Rent row = PyInt 95000 ->
    tenant_row libm_pow 5 (years_of valuation_date) row = Ok cells ->
    escalation libm_pow 5 3 = Ok 1.1576250000000001%float
    /\ (95000 * 1.1576250000000001)%float = 109974.37500000001%float
    /\ PyFloat.round2 109974.37500000001 = 109974.38%float
    /\ nth_error cells 3 = Some (PyFloat 109974.38).
Proof.
  intros libm_pow d row cells Hpow Hend Hm Hrow.
  assert (Hesc : escalation libm_pow 5 3 = Ok 1.1576250000000001%float).
  { unfold escalation, PyFloat.pow.
    change (PyFloat.const 1 + 5 / PyFloat.const 100)%float with 1.05%float.
    change (PyFloat.const (Z.of_nat 3)) with 3%float.
    cbv beta iota zeta.
    change (3 =? 0)%float with false.
    change (is_nan 1.05) with false.
    change (is_infinity 1.05) with false.
    change (1.05 =? 0)%float with false.
    change (1.05 <? 0)%float with false.
    cbv beta iota zeta.
    change (1.05 =? 1)%float with false.
    cbv beta iota zeta.
    rewrite Hpow; reflexivity. }
  split; [exact Hesc|].
  split; [reflexivity|].
  split; [vm_compute; reflexivity|].
  destruct (tenant_row_nth_error _ _ _ _ _ 3%nat Hrow) as (c & Hc & Hnth); [lia|].
  assert (Hend3 : Lease_End row < Calendar.start_of_year (year d + Z.of_nat 3)).
  { pose proof (start_of_year_mono (year d) (year d + Z.of_nat 3)); lia. }
  destruct (cell_reversion _ _ _ _ _ _ Hend3 Hc) as (growth & market & Hg & Hmk & ->).
  rewrite Hesc in Hg; injection Hg as <-.
  rewrite Hm in Hmk; vm_compute in Hmk; injection Hmk as <-.
  rewrite Hnth; do 2 f_equal; vm_compute; reflexivity.
Qed.

Lemma C8_scenario_D_witness :
  escalation ReferenceLibm.pow 5 3 = Ok 1.1576250000000001%float
  /\ (95000 * 1.1576250000000001)%float = 109974.37500000001%float
  /\ PyFloat.round2 109974.37500000001 = 109974.38%float
  /\ nth_error (Examples.cells_of 5 Examples.expired) 3 = Some (PyFloat 109974.38).
Proof.
  apply (C8_scenario_D ReferenceLibm.pow Examples.valuation_2025 Examples.expired
           (Examples.cells_of 5 Examples.expired)).
  - vm_compute; reflexivity.
  - vm_compute; reflexivity.
  - reflexivity.
  - vm_compute; reflexivity.
Defined.

(** C8, as the specification states it, fails: for a lease that ended in
    2020, market rent 95000 and 5 percent, the cell at offset 3 is
    109974.38 and not 109973.44. *)
Lemma C8_counterexample :
  Lease_End Examples.expired < Calendar.start_of_year (year Examples.valuation_2025)
  /\ Market_Rent Examples.expired = PyInt 95000
  /\ exists cells,
       tenant_row ReferenceLibm.pow 5 (years_of Examples.valuation_2025) Examples.expired
       = Ok cells
       /\ nth_error cells 3 = Some (PyFloat 109974.38)
       /\ nth_error cells 3 <> Some (PyFloat 109973.44).
Proof.
  split; [vm_compute; reflexivity|].
  split; [reflexivity|].
  exists (Examples.cells_of 5 Examples.expired).
  split; [vm_compute; reflexivity|].
  assert (H : nth_error (Examples.cells_of 5 Examples.expired) 3 = Some (PyFloat 109974.38))
    by (vm_compute; reflexivity).
  split; [exact H|].
  rewrite H; intros E.
  apply (f_equal (fun o => match o with Some (PyFloat x) => x | _ => 0%float end)) in E.
  revert E; apply float_neq; vm_compute; reflexivity.
Qed.


(** ** What the arithmetic returns

    The conversions, the power and the rounding of the model meet the
    descriptions [converts_to], [compounds] and [rounded_to_cents]. *)

Lemma of_int_Ok (n : Z) (x : float) :
  PyFloat.of_int n = Ok x -> x = SF2Prim (binary_normalize prec emax n 0 false).
Proof.
  unfold PyFloat.of_int, PyFloat.SF_of_Z.
  destruct (binary_normalize prec emax n 0 false); intros H;
    try discriminate; injection H as <-; reflexivity.
Qed.

Lemma float_of_Z_nearest (n : Z) :
  0 <= n < 2 ^ 63 -> float_of_Z n = SF2Prim (binary_normalize prec emax n 0 false).
Proof.
  intros Hn; unfold float_of_Z.
  rewrite <- (SF2Prim_Prim2SF (of_uint63 (of_Z n))), of_uint63_spec.
  rewrite Uint63.of_Z_spec, Z.mod_small; [reflexivity|].
  exact Hn.
Qed.

Lemma to_float_converts (a : pynum) (x : float) :
  PyFloat.to_float a = Ok x -> converts_to a x.
Proof.
  destruct a as [n|y]; simpl; intros H.
  - apply of_int_Ok in H; split; [exact H|].
    intros Hn; rewrite H; symmetry; apply float_of_Z_nearest, Hn.
  - injection H as <-; reflexivity.
Qed.

Lemma div_half_even_nearest (a b : Z) :
  0 <= a -> 0 < b ->
  let N := PyFloat.div_half_even a b in
  0 <= N
  /\ 2 * Z.abs (N * b - a) <= b
  /\ (2 * Z.abs (N * b - a) = b -> Z.even N = true).
Proof.
  intros Ha Hb; unfold PyFloat.div_half_even.
  pose proof (Z.div_mod a b ltac:(lia)) as Hdm.
  pose proof (Z.mod_pos_bound a b Hb) as Hr.
  assert (Hq : 0 <= a / b) by (apply Z.div_pos; lia).
  set (q := a / b) in *; set (r := a mod b) in *.
  clearbody q r.
  assert (Hq1 : (q + 1) * b - a = b - r) by (rewrite Hdm; ring).
  assert (Hq0 : q * b - a = - r) by (rewrite Hdm; ring).
  destruct (Z.compare_spec (2 * r) b) as [E|E|E]; cbv zeta.
  - destruct (Z.even q) eqn:Ev.
    + rewrite Hq0; repeat split; [lia | lia | intros _; exact Ev].
    + rewrite Hq1; repeat split; [lia | lia |].
      intros _; rewrite Z.even_add, Ev; reflexivity.
  - rewrite Hq0; repeat split; [lia | lia | intros; exfalso; lia].
  - rewrite Hq1; repeat split; [lia | lia | intros; exfalso; lia].
Qed.

Lemma hundredths_nearest (m : positive) (e : Z) :
  nearest_hundredths m e (PyFloat.hundredths m e).
Proof.
  unfold nearest_hundredths, PyFloat.hundredths.
  destruct e as [|p|k].
  - split; [lia | ring].
  - split; [|ring].
    assert (0 < 2 ^ Z.pos p) by (apply Z.pow_pos_nonneg; lia).
    apply Z.mul_nonneg_nonneg; lia.
  - assert (Hb : 0 < 2 ^ Z.pos k) by (apply Z.pow_pos_nonneg; lia).
    destruct (div_half_even_nearest (Z.pos m * 100) (2 ^ Z.pos k) ltac:(lia) Hb)
      as (H0 & H1 & H2).
    split; [exact H0|]; cbv zeta.
    replace (100 * Z.pos m) with (Z.pos m * 100) by lia.
    split; assumption.
Qed.

Lemma round2_rounded (x : float) : rounded_to_cents x (PyFloat.round2 x).
Proof.
  unfold rounded_to_cents, PyFloat.round2.
  destruct (Prim2SF x) as [s|s| |s m e] eqn:E;
    try (cbn [PyFloat.round2_SF]; rewrite <- E; apply SF2Prim_Prim2SF).
  exists (PyFloat.hundredths m e); split; [apply hundredths_nearest|].
  unfold PyFloat.round2_SF, signed_int.
  destruct (PyFloat.hundredths m e); try reflexivity; destruct s; reflexivity.
Qed.

(** ** The power *)

Lemma finite_above_one (b : float) :
  (1 <? b)%float = true -> (b <? infinity)%float = true ->
  exists m e, Prim2SF b = S754_finite false m e.
Proof.
  rewrite !ltb_spec.
  change (Prim2SF 1) with (S754_finite false 4503599627370496 (-52)).
  change (Prim2SF infinity) with (S754_infinity false).
  destruct (Prim2SF b) as [s|s| |s m e]; try discriminate.
  - destruct s; discriminate.
  - destruct s; [discriminate|]; intros _ _; eauto.
Qed.

Lemma SFcompare_refl_finite (m : positive) (e : Z) :
  SFcompare (S754_finite false m e) (S754_finite false m e) = Some Eq.
Proof.
  cbn [SFcompare]; rewrite Z.compare_refl.
  change (Pos.compare_cont Eq m m) with (Pos.compare m m).
  rewrite Pos.compare_refl; reflexivity.
Qed.

Lemma SFcompare_Eq_finite (m m' : positive) (e e' : Z) :
  SFcompare (S754_finite false m e) (S754_finite false m' e') = Some Eq ->
  m = m' /\ e = e'.
Proof.
  cbn [SFcompare]; destruct (Z.compare_spec e e') as [->|H|H]; try discriminate.
  change (Pos.compare_cont Eq m m') with (Pos.compare m m').
  destruct (Pos.compare_spec m m') as [->|H|H]; try discriminate; auto.
Qed.

Lemma pow_regular libm_pow (b : float) (i : nat) (g : float) :
  (1 <? b)%float = true -> (b <? infinity)%float = true ->
  (0 < i < 10)%nat ->
  PyFloat.pow libm_pow b i = Ok g ->
  g = libm_pow b (float_of_Z (Z.of_nat i)).
Proof.
  intros H1 Hinf Hi.
  destruct (finite_above_one b H1 Hinf) as (m & e & Hb).
  assert (Hw : PyFloat.const (Z.of_nat i) = float_of_Z (Z.of_nat i)
               /\ (PyFloat.const (Z.of_nat i) =? 0)%float = false).
  { destruct Hi as (Hi0 & Hi9).
    do 10 (destruct i as [|i]; [first [lia | split; reflexivity]|]); lia. }
  destruct Hw as (Hw & Hw0).
  assert (Hnan : is_nan b = false).
  { unfold is_nan; rewrite eqb_spec, Hb; unfold SFeqb.
    rewrite SFcompare_refl_finite; reflexivity. }
  assert (Hin : is_infinity b = false).
  { unfold is_infinity; rewrite eqb_spec, abs_spec, Hb; reflexivity. }
  assert (Hz : (b =? 0)%float = false) by (rewrite eqb_spec, Hb; reflexivity).
  assert (Hneg : (b <? 0)%float = false) by (rewrite ltb_spec, Hb; reflexivity).
  assert (Hone : (b =? 1)%float = false).
  { rewrite eqb_spec, Hb; unfold SFeqb.
    change (Prim2SF 1) with (S754_finite false 4503599627370496 (-52)).
    destruct (SFcompare (S754_finite false m e)
                (S754_finite false 4503599627370496 (-52))) as [[| |]|] eqn:E;
      try reflexivity.
    apply SFcompare_Eq_finite in E as (-> & ->).
    rewrite ltb_spec, Hb in H1; discriminate H1. }
  unfold PyFloat.pow; cbv zeta.
  rewrite Hw0, Hnan, Hin, Hz, Hneg; cbn [andb].
  rewrite Hone, Hw.
  destruct (is_infinity (libm_pow b (float_of_Z (Z.of_nat i)))); [discriminate|].
  destruct (is_nan (libm_pow b (float_of_Z (Z.of_nat i)))); [discriminate|].
  intros H; injection H as <-; reflexivity.
Qed.

Lemma pow_zero libm_pow (b : float) (g : float) :
  PyFloat.pow libm_pow b 0 = Ok g -> g = 1%float.
Proof. intros H; injection H as <-; reflexivity. Qed.

Lemma pow_of_one libm_pow (i : nat) (g : float) :
  PyFloat.pow libm_pow 1 i = Ok g -> g = 1%float.
Proof.
  unfold PyFloat.pow; cbv zeta.
  destruct (PyFloat.const (Z.of_nat i) =? 0)%float; intros H; injection H as <-; reflexivity.
Qed.

Lemma escalation_compounds libm_pow (escalation_percent : float) (i : nat) (g : float) :
  (i < 10)%nat ->
  escalation libm_pow escalation_percent i = Ok g ->
  compounds libm_pow (1 + escalation_percent / 100)%float i g.
Proof.
  intros Hi H; unfold escalation in H.
  change (PyFloat.const 1) with 1%float in H.
  change (PyFloat.const 100) with 100%float in H.
  repeat split.
  - intros ->; exact (pow_zero _ _ _ H).
  - intros Hb; rewrite Hb in H; exact (pow_of_one _ _ _ H).
  - intros H1 Hinf Hi0; apply pow_regular; auto; lia.
Qed.

(** ** The quotient of two day counts *)

Lemma quotients_agree_365 :
  forallb (fun k => quotient_agrees 365 (Z.of_nat k)) (seq 1 365) = true.
Proof. vm_compute; reflexivity. Qed.

Lemma quotients_agree_366 :
  forallb (fun k => quotient_agrees 366 (Z.of_nat k)) (seq 1 366) = true.
Proof. vm_compute; reflexivity. Qed.

Lemma int_true_div_of_days (n k : Z) (f : float) :
  n = 365 \/ n = 366 -> 1 <= k <= n ->
  PyFloat.int_true_div k n = Ok f ->
  f = (float_of_Z k / float_of_Z n)%float.
Proof.
  intros Hn Hk Hf.
  assert (Hq : quotient_agrees n k = true).
  { rewrite <- (Z2Nat.id k) by lia.
    destruct Hn as [-> | ->].
    - apply (proj1 (forallb_forall _ _) quotients_agree_365 (Z.to_nat k)).
      apply in_seq; lia.
    - apply (proj1 (forallb_forall _ _) quotients_agree_366 (Z.to_nat k)).
      apply in_seq; lia. }
  unfold quotient_agrees in Hq; rewrite Hf in Hq.
  apply FloatAxioms.Leibniz.eqb_spec in Hq; exact Hq.
Qed.

Lemma days_in_year_366 (y : Z) :
  days_in_year y = 366 <-> (y mod 4 = 0 /\ y mod 100 <> 0) \/ y mod 400 = 0.
Proof.
  rewrite days_in_year_leap; unfold Calendar.is_leap.
  destruct (Z.eqb_spec (y mod 4) 0), (Z.eqb_spec (y mod 100) 0),
    (Z.eqb_spec (y mod 400) 0); cbn [andb orb negb]; split; intros H;
    try reflexivity; try discriminate; try tauto; try lia.
Qed.

(** ** The value of a cell *)

Lemma float_of_some (x y : float) : Some (PyFloat x) = Some (PyFloat y) -> x = y.
Proof.
  intros H.
  exact (f_equal (fun o => match o with Some (PyFloat z) => z | _ => x end) H).
Qed.

(** C1. In a projection year that begins after the lease has ended, the
    cell is the market rent times [(1 + escalation_percent / 100) ** i],
    rounded to two decimals, where [i] is the offset of the year from the
    valuation year, whenever the lease ended: the rent is the float of the
    market rent, the factor is 1.0 at offset 0 and what the C library's
    [pow] returns for the base and the exponent [i] above it, and the cell
    is the product rounded to the nearest hundredth. *)
Theorem C1_reversion_cell :
  forall libm_pow escalation_percent (valuation_date : date) (row : LeaseRow)
         (cells : list pynum) (i : nat),
    tenant_row libm_pow escalation_percent (years_of valuation_date) row = Ok cells ->
    (i < 10)%nat ->
    Lease_End row < Calendar.start_of_year (year valuation_date + Z.of_nat i) ->
    exists growth market_rent r,
      converts_to (Market_Rent row) market_rent
      /\ compounds libm_pow (1 + escalation_percent / 100)%float i growth
      /\ rounded_to_cents (market_rent * growth)%float r
      /\ nth_error cells i = Some (PyFloat r).
Proof.
  intros libm_pow esc d row cells i Hrow Hi Hend.
  destruct (tenant_row_nth_error _ _ _ _ _ _ Hrow Hi) as (c & Hc & Hnth).
  destruct (cell_reversion _ _ _ _ _ _ Hend Hc) as (growth & market & Hg & Hm & ->).
  exists growth, market, (PyFloat.round2 (market * growth)%float).
  split; [apply to_float_converts, Hm|].
  split; [apply escalation_compounds; assumption|].
  split; [apply round2_rounded | exact Hnth].
Qed.

Lemma C1_reversion_cell_witness :
  exists growth market_rent r,
    (converts_to (Market_Rent Examples.tenant_A) market_rent
     /\ compounds ReferenceLibm.pow (1 + 5 / 100)%float 5 growth
     /\ rounded_to_cents (market_rent * growth)%float r
     /\ nth_error (Examples.cells_of 5 Examples.tenant_A) 5 = Some (PyFloat r))
    /\ market_rent = 120000%float
    /\ growth = 1.2762815625000004%float
    /\ (market_rent * growth)%float = 153153.78750000003%float
    /\ r = 153153.79%float.
Proof.
  destruct (C1_reversion_cell ReferenceLibm.pow 5%float Examples.valuation_2025
              Examples.tenant_A (Examples.cells_of 5 Examples.tenant_A) 5)
    as (growth & market & r & Hm & Hg & Hr & Hnth).
  - vm_compute; reflexivity.
  - lia.
  - vm_compute; reflexivity.
  - exists growth, market, r.
    split; [auto|].
    assert (Em : market = 120000%float).
    { destruct Hm as (_ & Hm); rewrite Hm by (vm_compute; split; [discriminate|reflexivity]).
      vm_compute; reflexivity. }
    assert (Eg : growth = 1.2762815625000004%float).
    { destruct Hg as (_ & _ & Hg); rewrite Hg; [vm_compute; reflexivity | | | lia];
        vm_compute; reflexivity. }
    assert (Er : r = 153153.79%float).
    { symmetry; apply float_of_some; rewrite <- Hnth; vm_compute; reflexivity. }
    subst; repeat split; vm_compute; reflexivity.
Defined.

(** C2. In a projection year that the lease overlaps (it has not ended
    before January 1 and has started by December 31), with the lease
    starting no later than it ends, the cell is the passing rent times
    [(1 + escalation_percent / 100) ** i] times
    [days_covered / days_in_year], rounded to two decimals: [days_covered]
    counts the days from the later of January 1 and the lease start to the
    earlier of December 31 and the lease end, both included, [days_in_year]
    is 365, or 366 in a leap year, and the quotient is the float quotient
    of the two counts. *)
Theorem C2_in_term_cell :
  forall libm_pow escalation_percent (valuation_date : date) (row : LeaseRow)
         (cells : list pynum) (i : nat),
    let y := year valuation_date + Z.of_nat i in
    tenant_row libm_pow escalation_percent (years_of valuation_date) row = Ok cells ->
    (i < 10)%nat ->
    Lease_Start row <= Lease_End row ->
    ~ Lease_End row < Calendar.start_of_year y ->
    ~ Lease_Start row > Calendar.end_of_year y ->
    exists growth passing_rent r,
      converts_to (Passing_Rent row) passing_rent
      /\ compounds libm_pow (1 + escalation_percent / 100)%float i growth
      /\ days_covered row y =
         Calendar.Timedelta_days
           (Z.min (Calendar.end_of_year y) (Lease_End row)
            - Z.max (Calendar.start_of_year y) (Lease_Start row)) + 1
      /\ days_in_year y =
         Calendar.Timedelta_days (Calendar.end_of_year y - Calendar.start_of_year y) + 1
      /\ (days_in_year y = 365 \/ days_in_year y = 366)
      /\ (days_in_year y = 366 <-> (y mod 4 = 0 /\ y mod 100 <> 0) \/ y mod 400 = 0)
      /\ 1 <= days_covered row y <= days_in_year y
      /\ rounded_to_cents
           (passing_rent * growth
            * (float_of_Z (days_covered row y) / float_of_Z (days_in_year y)))%float r
      /\ nth_error cells i = Some (PyFloat r).
Proof.
  intros libm_pow esc d row cells i y Hrow Hi Hle Hend Hstart.
  destruct (tenant_row_nth_error _ _ _ _ _ _ Hrow Hi) as (c & Hc & Hnth).
  destruct (cell_in_term _ _ _ _ _ _ Hend Hstart Hc)
    as (growth & passing & fraction & Hg & Hp & Hf & ->).
  pose proof (days_covered_bounds row y Hle Hend Hstart) as Hdays.
  pose proof (days_in_year_cases y) as Hn.
  apply (int_true_div_of_days _ _ _ Hn Hdays) in Hf; subst fraction.
  exists growth, passing,
    (PyFloat.round2
       (passing * growth
        * (float_of_Z (days_covered row y) / float_of_Z (days_in_year y)))%float).
  split; [apply to_float_converts, Hp|].
  split; [apply escalation_compounds; assumption|].
  split; [reflexivity|]; split; [reflexivity|]; split; [exact Hn|].
  split; [apply days_in_year_366|]; split; [exact Hdays|].
  split; [apply round2_rounded | exact Hnth].
Qed.

Lemma C2_in_term_cell_witness :
  exists growth passing_rent r,
    (converts_to (Passing_Rent Examples.sample_B) passing_rent
     /\ compounds ReferenceLibm.pow (1 + 5 / 100)%float 4 growth
     /\ rounded_to_cents
          (passing_rent * growth
           * (float_of_Z (days_covered Examples.sample_B 2029)
              / float_of_Z (days_in_year 2029)))%float r
     /\ nth_error (Examples.cells_of 5 Examples.sample_B) 4 = Some (PyFloat r))
    /\ passing_rent = 120000%float
    /\ growth = 1.2155062500000002%float
    /\ days_covered Examples.sample_B 2029 = 151
    /\ days_in_year 2029 = 365
    /\ (float_of_Z 151 / float_of_Z 365)%float = 0.41369863013698632%float
    /\ (passing_rent * growth * (float_of_Z 151 / float_of_Z 365))%float
       = 60342.392465753437%float
    /\ r = 60342.39%float.
Proof.
  destruct (C2_in_term_cell ReferenceLibm.pow 5%float Examples.valuation_2025
              Examples.sample_B (Examples.cells_of 5 Examples.sample_B) 4)
    as (growth & passing & r & Hp & Hg & _ & _ & _ & _ & _ & Hr & Hnth).
  - vm_compute; reflexivity.
  - lia.
  - vm_compute; discriminate.
  - vm_compute; discriminate.
  - vm_compute; intros H; discriminate H.
  - exists growth, passing, r.
    split; [auto|].
    assert (Ep : passing = 120000%float).
    { destruct Hp as (_ & Hp); rewrite Hp by (vm_compute; split; [discriminate|reflexivity]).
      vm_compute; reflexivity. }
    assert (Eg : growth = 1.2155062500000002%float).
    { destruct Hg as (_ & _ & Hg); rewrite Hg; [vm_compute; reflexivity | | | lia];
        vm_compute; reflexivity. }
    assert (Er : r = 60342.39%float).
    { symmetry; apply float_of_some; rewrite <- Hnth; vm_compute; reflexivity. }
    subst; repeat split; vm_compute; reflexivity.
Defined.

(** C7. In a projection year that the lease covers entirely (it started
    by January 1 and ends on December 31 or later), the days covered are
    the days of the year, their float quotient is exactly 1.0, and the
    cell is the passing rent times [(1 + escalation_percent / 100) ** i],
    rounded to two decimals: the proration changes nothing. *)
Theorem C7_full_year_cell :
  forall libm_pow escalation_percent (valuation_date : date) (row : LeaseRow)
         (cells : list pynum) (i : nat),
    let y := year valuation_date + Z.of_nat i in
    tenant_row libm_pow escalation_percent (years_of valuation_date) row = Ok cells ->
    (i < 10)%nat ->
    Lease_Start row <= Calendar.start_of_year y ->
    Lease_End row >= Calendar.end_of_year y ->
    days_covered row y = days_in_year y
    /\ (float_of_Z (days_covered row y) / float_of_Z (days_in_year y))%float = 1%float
    /\ PyFloat.int_true_div (days_covered row y) (days_in_year y) = Ok 1%float
    /\ exists growth passing_rent r,
         converts_to (Passing_Rent row) passing_rent
         /\ compounds libm_pow (1 + escalation_percent / 100)%float i growth
         /\ rounded_to_cents (passing_rent * growth)%float r
         /\ nth_error cells i = Some (PyFloat r).
Proof.
  intros libm_pow esc d row cells i y Hrow Hi Hs He.
  pose proof (start_before_end_of_year y) as Hy.
  pose proof (days_covered_full_year row y Hs He) as Hdays.
  assert (Hone : PyFloat.int_true_div (days_covered row y) (days_in_year y) = Ok 1%float)
    by (rewrite Hdays; apply whole_year_fraction, days_in_year_cases).
  split; [exact Hdays|].
  split; [rewrite Hdays; destruct (days_in_year_cases y) as [-> | ->]; reflexivity|].
  split; [exact Hone|].
  destruct (tenant_row_nth_error _ _ _ _ _ _ Hrow Hi) as (c & Hc & Hnth).
  destruct (cell_in_term libm_pow esc row i y c) as
    (growth & passing & fraction & Hg & Hp & Hf & ->); [lia | lia | exact Hc |].
  rewrite Hone in Hf; injection Hf as <-.
  rewrite mul_one_r in Hnth.
  exists growth, passing, (PyFloat.round2 (passing * growth)%float).
  split; [apply to_float_converts, Hp|].
  split; [apply escalation_compounds; assumption|].
  split; [apply round2_rounded | exact Hnth].
Qed.

Lemma C7_full_year_cell_witness :
  (days_covered Examples.sample_C 2030 = days_in_year 2030
   /\ (float_of_Z (days_covered Examples.sample_C 2030)
       / float_of_Z (days_in_year 2030))%float = 1%float
   /\ PyFloat.int_true_div (days_covered Examples.sample_C 2030) (days_in_year 2030)
      = Ok 1%float
   /\ exists growth passing_rent r,
        converts_to (Passing_Rent Examples.sample_C) passing_rent
        /\ compounds ReferenceLibm.pow (1 + 5 / 100)%float 5 growth
        /\ rounded_to_cents (passing_rent * growth)%float r
        /\ nth_error (Examples.cells_of 5 Examples.sample_C) 5 = Some (PyFloat r))
  /\ days_in_year 2030 = 365
  /\ (90000 * 1.2762815625000004)%float = 114865.34062500003%float
  /\ nth_error (Examples.cells_of 5 Examples.sample_C) 5 = Some (PyFloat 114865.34).
Proof.
  split.
  - apply (C7_full_year_cell ReferenceLibm.pow 5%float Examples.valuation_2025
             Examples.sample_C (Examples.cells_of 5 Examples.sample_C) 5).
    + vm_compute; reflexivity.
    + lia.
    + vm_compute; discriminate.
    + vm_compute; discriminate.
  - repeat split; vm_compute; reflexivity.
Defined.

(** * Rounding is monotone

    The rest of the file proves that the binary64 product of non-negative
    floats and the rounding to two decimals are monotone, from the
    Standard Library's specification of the primitive floats, and with it
    how the cells of consecutive years compare. *)

(** ** Shifting and locations *)

Lemma bpow_pos (e : Z) : (0 < bpow e)%R.
Proof. apply powerRZ_lt; lra. Qed.

Lemma bpow_add (a b : Z) : bpow (a + b) = (bpow a * bpow b)%R.
Proof. unfold bpow; apply powerRZ_add; lra. Qed.

Lemma bpow_succ (e : Z) : bpow (e + 1) = (2 * bpow e)%R.
Proof. rewrite bpow_add; unfold bpow at 2; rewrite powerRZ_1; lra. Qed.

Lemma bpow_IZR (n : Z) : 0 <= n -> bpow n = IZR (2 ^ n).
Proof.
  intros Hn; unfold bpow.
  destruct n as [|p|p]; [reflexivity| |lia].
  change (2 ^ Z.pos p) with (Z.pow_pos 2 p).
  rewrite Zpower_pos_powerRZ; reflexivity.
Qed.

Lemma bpow_ge_1 (n : Z) : 0 <= n -> (1 <= bpow n)%R.
Proof.
  intros Hn; rewrite bpow_IZR by assumption.
  apply IZR_le. assert (0 < 2 ^ n) by (apply Z.pow_pos_nonneg; lia). lia.
Qed.

Lemma bpow_le (a b : Z) : a <= b -> (bpow a <= bpow b)%R.
Proof.
  intros H; replace b with (a + (b - a)) by lia.
  rewrite bpow_add.
  pose proof (bpow_pos a); pose proof (bpow_ge_1 (b - a) ltac:(lia)).
  nra.
Qed.

Lemma shr_1_div2 (m : Z) (r s : bool) :
  0 <= m ->
  shr_1 {| shr_m := m; shr_r := r; shr_s := s |}
  = {| shr_m := m / 2; shr_r := Z.odd m; shr_s := r || s |}.
Proof.
  intros Hm; destruct m as [|[p|p|]|p]; try lia; cbn [shr_1].
  - reflexivity.
  - replace (Z.pos p~1 / 2) with (Z.pos p) by (apply Z.div_unique with 1; lia).
    reflexivity.
  - replace (Z.pos p~0 / 2) with (Z.pos p) by (apply Z.div_unique with 0; lia).
    reflexivity.
  - reflexivity.
Qed.

Lemma located_shr_1 (mrs : shr_record) (e : Z) (v : R) :
  0 <= shr_m mrs ->
  located (shr_m mrs) e v (loc_of_shr_record mrs) ->
  located (shr_m (shr_1 mrs)) (e + 1) v (loc_of_shr_record (shr_1 mrs))
  /\ shr_m (shr_1 mrs) = shr_m mrs / 2.
Proof.
  destruct mrs as [m r s]; cbn [shr_m]; intros Hm H.
  rewrite shr_1_div2 by assumption; cbn [shr_m].
  split; [|reflexivity].
  pose proof (bpow_pos e) as Hb.
  pose proof (bpow_succ e) as Hs.
  assert (Hm2 : (IZR m = 2 * IZR (m / 2) + (if Z.odd m then 1 else 0))%R).
  { rewrite (Z.div_mod m 2) at 1 by lia.
    rewrite plus_IZR, mult_IZR, Zmod_odd.
    destruct (Z.odd m); reflexivity. }
  destruct (Z.odd m), r, s; cbn [loc_of_shr_record located orb] in *;
    rewrite Hs, Hm2 in *;
    set (x := IZR (m / 2)) in *; set (b := bpow e) in *; clearbody x b;
    nra.
Qed.

Lemma iter_pos_nat {A : Type} (f : A -> A) (p : positive) (x : A) :
  SpecFloat.iter_pos f p x = Nat.iter (Pos.to_nat p) f x.
Proof.
  revert x; induction p as [p IH|p IH|]; intros x; cbn [SpecFloat.iter_pos].
  - rewrite !IH, Pos2Nat.inj_xI.
    replace (S (2 * Pos.to_nat p)) with (Pos.to_nat p + (Pos.to_nat p + 1))%nat by lia.
    rewrite !Nat.iter_add; reflexivity.
  - rewrite !IH, Pos2Nat.inj_xO.
    replace (2 * Pos.to_nat p)%nat with (Pos.to_nat p + Pos.to_nat p)%nat by lia.
    rewrite Nat.iter_add; reflexivity.
  - reflexivity.
Qed.

Lemma located_shr_iter (n : nat) (mrs : shr_record) (e : Z) (v : R) :
  0 <= shr_m mrs ->
  located (shr_m mrs) e v (loc_of_shr_record mrs) ->
  located (shr_m (Nat.iter n shr_1 mrs)) (e + Z.of_nat n) v
    (loc_of_shr_record (Nat.iter n shr_1 mrs))
  /\ shr_m (Nat.iter n shr_1 mrs) = shr_m mrs / 2 ^ Z.of_nat n.
Proof.
  intros Hm H; induction n as [|n IH].
  - cbn [Nat.iter]; rewrite Z.add_0_r, Z.div_1_r; auto.
  - destruct IH as (IH1 & IH2).
    change (Nat.iter (S n) shr_1 mrs) with (shr_1 (Nat.iter n shr_1 mrs)).
    assert (H0 : 0 <= shr_m (Nat.iter n shr_1 mrs)).
    { rewrite IH2; apply Z.div_pos; [assumption | apply Z.pow_pos_nonneg; lia]. }
    destruct (located_shr_1 _ _ _ H0 IH1) as (H1 & H2).
    split.
    + replace (e + Z.of_nat (S n)) with (e + Z.of_nat n + 1) by lia; exact H1.
    + rewrite H2, IH2, Z.div_div by (try apply Z.pow_pos_nonneg; lia).
      rewrite Nat2Z.inj_succ, Z.pow_succ_r by lia.
      f_equal; lia.
Qed.

Lemma loc_of_record_of_loc (m : Z) (l : location) :
  loc_of_shr_record (shr_record_of_loc m l) = l
  /\ shr_m (shr_record_of_loc m l) = m.
Proof. destruct l as [|[| |]]; split; reflexivity. Qed.

(** The first shift of [binary_round_aux]. *)
Lemma shr_fexp_located (m e : Z) (l : location) (v : R) :
  0 <= m -> located m e v l ->
  e <= fexp prec emax (Zdigits2 m + e) ->
  exists mrs,
    shr_fexp prec emax m e l = (mrs, fexp prec emax (Zdigits2 m + e))
    /\ located (shr_m mrs) (fexp prec emax (Zdigits2 m + e)) v (loc_of_shr_record mrs)
    /\ shr_m mrs = m / 2 ^ (fexp prec emax (Zdigits2 m + e) - e).
Proof.
  intros Hm H He; unfold shr_fexp.
  set (E := fexp prec emax (Zdigits2 m + e)) in *.
  destruct (loc_of_record_of_loc m l) as (Hl & Hmm).
  destruct (E - e) as [|p|p] eqn:En; [| |lia]; cbn [shr].
  - exists (shr_record_of_loc m l).
    replace E with e by lia.
    rewrite Hl, Hmm, Z.div_1_r; auto.
  - exists (SpecFloat.iter_pos shr_1 p (shr_record_of_loc m l)).
    rewrite iter_pos_nat.
    destruct (located_shr_iter (Pos.to_nat p) (shr_record_of_loc m l) e v) as (H1 & H2).
    + rewrite Hmm; exact Hm.
    + rewrite Hl, Hmm; exact H.
    + rewrite positive_nat_Z in H1, H2.
      replace (e + Z.pos p) with E in * by lia.
      rewrite Hmm in H2; auto.
Qed.

Lemma digits2_size (p : positive) : digits2_pos p = Pos.size p.
Proof. induction p; cbn [digits2_pos Pos.size]; congruence. Qed.

Lemma Zdigits2_bounds (m : Z) :
  0 < m -> 2 ^ (Zdigits2 m - 1) <= m < 2 ^ Zdigits2 m.
Proof.
  destruct m as [|p|p]; try lia; intros _; cbn [Zdigits2].
  rewrite digits2_size.
  pose proof (Pos.size_gt p) as Hgt; pose proof (Pos.size_le p) as Hle.
  apply Pos2Z.pos_lt_pos in Hgt; apply Pos2Z.pos_le_pos in Hle.
  rewrite Pos2Z.inj_pow in Hgt, Hle.
  split; [|exact Hgt].
  assert (H2 : 2 ^ Z.pos (Pos.size p) = 2 * 2 ^ (Z.pos (Pos.size p) - 1)).
  { rewrite <- Z.pow_succ_r by lia; f_equal; lia. }
  change ((2 * 1) ^ Z.pos (Pos.size p)) with (2 ^ Z.pos (Pos.size p)) in Hle.
  lia.
Qed.

Lemma Zdigits2_nonneg (m : Z) : 0 <= Zdigits2 m.
Proof. destruct m; cbn; lia. Qed.

Lemma fexp_unfold (x : Z) : fexp prec emax x = Z.max (x - 53) (-1074).
Proof. reflexivity. Qed.

Lemma fexp_ge_emin (x : Z) : -1074 <= fexp prec emax x.
Proof. rewrite fexp_unfold; lia. Qed.

Lemma fexp_mono (x y : Z) : x <= y -> fexp prec emax x <= fexp prec emax y.
Proof. rewrite !fexp_unfold; lia. Qed.

Lemma Zdigits2_le_of_lt (N k : Z) : 0 < N -> 0 <= k -> N < 2 ^ k -> Zdigits2 N <= k.
Proof.
  intros HN Hk H.
  pose proof (Zdigits2_bounds N HN) as (Hlo & _).
  pose proof (Zdigits2_nonneg N).
  destruct (Z.le_gt_cases (Zdigits2 N) k) as [|Hgt]; [assumption|exfalso].
  assert (2 ^ k <= 2 ^ (Zdigits2 N - 1)) by (apply Z.pow_le_mono_r; lia).
  lia.
Qed.

Lemma finish_spec (s : bool) (N E : Z) :
  0 <= N <= 2 ^ 53 -> -1074 <= E ->
  (let '(mrs, e) := shr_fexp prec emax N E loc_Exact in
   match shr_m mrs with
   | Z0 => S754_zero s
   | Zpos m => if e <=? emax - prec then S754_finite s m e else S754_infinity s
   | Zneg _ => S754_nan
   end) = finish s N E.
Proof.
  intros HN HE; unfold finish.
  change (2 ^ 53) with 9007199254740992 in HN.
  destruct (Z.eqb_spec N 9007199254740992) as [->|Hne].
  - unfold shr_fexp.
    change (Zdigits2 9007199254740992) with 54.
    replace (fexp prec emax (54 + E) - E) with 1 by (rewrite fexp_unfold; lia).
    reflexivity.
  - assert (Hshift : fexp prec emax (Zdigits2 N + E) - E <= 0).
    { rewrite fexp_unfold.
      destruct (Z.eq_dec N 0) as [->|H0].
      - cbn [Zdigits2]; lia.
      - pose proof (Zdigits2_le_of_lt N 53 ltac:(lia) ltac:(lia)
                      ltac:(change (2 ^ 53) with 9007199254740992; lia)); lia. }
    unfold shr_fexp; cbn [shr_record_of_loc].
    destruct (fexp prec emax (Zdigits2 N + E) - E) as [|p|p]; try lia;
      cbn [shr shr_m]; destruct N; reflexivity.
Qed.

Lemma round_nearest_even_bounds (m : Z) (l : location) :
  m <= round_nearest_even m l <= m + 1.
Proof.
  destruct l as [|[| |]]; cbn [round_nearest_even]; try lia.
  destruct (Z.even m); lia.
Qed.

Lemma located_bounds (m e : Z) (v : R) (l : location) :
  located m e v l -> (IZR m * bpow e <= v < (IZR m + 1) * bpow e)%R.
Proof.
  pose proof (bpow_pos e).
  destruct l as [|[| |]]; cbn [located]; intros; nra.
Qed.

(** Rounding to nearest is monotone on one grid. *)
Lemma round_nearest_even_mono (m1 m2 E : Z) (l1 l2 : location) (v1 v2 : R) :
  located m1 E v1 l1 -> located m2 E v2 l2 -> (v1 <= v2)%R ->
  round_nearest_even m1 l1 <= round_nearest_even m2 l2.
Proof.
  intros H1 H2 Hv.
  pose proof (bpow_pos E) as Hb.
  pose proof (round_nearest_even_bounds m1 l1) as B1.
  pose proof (round_nearest_even_bounds m2 l2) as B2.
  pose proof (located_bounds _ _ _ _ H1) as L1.
  pose proof (located_bounds _ _ _ _ H2) as L2.
  destruct (Z.lt_trichotomy m1 m2) as [Hlt|[Heq|Hgt]]; [lia| |exfalso].
  - subst m2.
    destruct l1 as [|[| |]], l2 as [|[| |]]; cbn [located round_nearest_even] in *;
      try lia; try (destruct (Z.even m1); lia); exfalso;
      set (b := bpow E) in *; set (x := IZR m1) in *; clearbody b x; lra.
  - assert (IZR m2 + 1 <= IZR m1)%R by (rewrite <- plus_IZR; apply IZR_le; lia).
    nra.
Qed.

(** What [binary_round_aux] returns on a located positive input with
    enough digits. *)
Lemma binary_round_aux_located (s : bool) (m e : Z) (l : location) (v : R) :
  0 < m -> located m e v l ->
  e <= fexp prec emax (Zdigits2 m + e) ->
  exists m' l',
    located m' (fexp prec emax (Zdigits2 m + e)) v l'
    /\ 0 <= m' < 2 ^ 53
    /\ (-1074 < fexp prec emax (Zdigits2 m + e) -> 2 ^ 52 <= m')
    /\ binary_round_aux prec emax s m e l
       = finish s (round_nearest_even m' l') (fexp prec emax (Zdigits2 m + e)).
Proof.
  intros Hm H He.
  destruct (shr_fexp_located m e l v ltac:(lia) H He) as (mrs & Hshr & Hloc & Hdiv).
  set (E := fexp prec emax (Zdigits2 m + e)) in *.
  pose proof (Zdigits2_bounds m Hm) as (Hlo & Hhi).
  pose proof (Zdigits2_nonneg m) as Hd.
  assert (Hpow : 0 < 2 ^ (E - e)) by (apply Z.pow_pos_nonneg; lia).
  assert (HE : E = Z.max (Zdigits2 m + e - 53) (-1074)) by (apply fexp_unfold).
  assert (Hup : shr_m mrs < 2 ^ 53).
  { rewrite Hdiv; apply Z.div_lt_upper_bound; [exact Hpow|].
    rewrite <- Z.pow_add_r by lia.
    apply Z.lt_le_trans with (1 := Hhi), Z.pow_le_mono_r; lia. }
  assert (Hnn : 0 <= shr_m mrs) by (rewrite Hdiv; apply Z.div_pos; lia).
  assert (Hnorm : -1074 < E -> 2 ^ 52 <= shr_m mrs).
  { intros HEm; rewrite Hdiv; apply Z.div_le_lower_bound; [exact Hpow|].
    rewrite <- Z.pow_add_r by lia.
    apply Z.le_trans with (2 := Hlo), Z.pow_le_mono_r; lia. }
  exists (shr_m mrs), (loc_of_shr_record mrs).
  split; [exact Hloc|]; split; [lia|]; split; [exact Hnorm|].
  unfold binary_round_aux; rewrite Hshr.
  apply finish_spec.
  - pose proof (round_nearest_even_bounds (shr_m mrs) (loc_of_shr_record mrs)); lia.
  - apply fexp_ge_emin.
Qed.

Lemma bpow_lt_inv (a b : Z) : (bpow a < bpow b)%R -> a < b.
Proof.
  intros H; destruct (Z.lt_ge_cases a b) as [|Hge]; [assumption|exfalso].
  apply bpow_le in Hge; lra.
Qed.

Lemma pack_le (N1 E1 N2 E2 : Z) :
  0 <= N1 -> 0 <= N2 ->
  N1 = 0 \/ (E1 < E2 /\ 0 < N2) \/ (E1 = E2 /\ N1 <= N2) ->
  SFleb (pack false N1 E1) (pack false N2 E2) = true.
Proof.
  intros H1 H2 Hord; unfold pack.
  destruct N1 as [|p1|p1], N2 as [|p2|p2]; try lia; try reflexivity.
  - destruct (E2 <=? 971); reflexivity.
  - destruct (Z.leb_spec E1 971), (Z.leb_spec E2 971); try reflexivity; try lia.
    unfold SFleb; cbn [SFcompare].
    destruct (Z.compare_spec E1 E2); try reflexivity; try lia.
    change (Pos.compare_cont Eq p1 p2) with (Pos.compare p1 p2).
    destruct (Pos.compare_spec p1 p2); try reflexivity; lia.
Qed.

(** The order of two results of [finish]. *)
Lemma finish_le (N1 E1 N2 E2 : Z) :
  0 <= N1 <= 2 ^ 53 -> 0 <= N2 <= 2 ^ 53 ->
  (-1074 < E2 -> 2 ^ 52 <= N2) -> -1074 <= E1 ->
  E1 < E2 \/ (E1 = E2 /\ N1 <= N2) ->
  SFleb (finish false N1 E1) (finish false N2 E2) = true.
Proof.
  change (2 ^ 53) with 9007199254740992; change (2 ^ 52) with 4503599627370496.
  intros H1 H2 Hn2 HE1 Hord; unfold finish.
  destruct (Z.eqb_spec N1 9007199254740992), (Z.eqb_spec N2 9007199254740992);
    apply pack_le; lia.
Qed.

Lemma located_magnitude (m e : Z) (v : R) (l : location) :
  0 < m -> located m e v l ->
  (bpow (Zdigits2 m - 1 + e) <= v < bpow (Zdigits2 m + e))%R.
Proof.
  intros Hm H.
  pose proof (located_bounds _ _ _ _ H) as (Hlo & Hhi).
  pose proof (Zdigits2_bounds m Hm) as (Dlo & Dhi).
  pose proof (Zdigits2_nonneg m) as Hd.
  assert (Zdigits2 m <> 0) by (destruct m; cbn; lia).
  pose proof (bpow_pos e) as Hb.
  rewrite !bpow_add.
  rewrite (bpow_IZR (Zdigits2 m - 1)), (bpow_IZR (Zdigits2 m)) by lia.
  apply IZR_le in Dlo.
  assert (IZR m + 1 <= IZR (2 ^ Zdigits2 m))%R
    by (rewrite <- plus_IZR; apply IZR_le; lia).
  set (b := bpow e) in *; set (x := IZR m) in *;
    set (lo := IZR (2 ^ (Zdigits2 m - 1))) in *; set (hi := IZR (2 ^ Zdigits2 m)) in *.
  clearbody b x lo hi.
  split; nra.
Qed.

(** Rounding to nearest is monotone. *)
Theorem binary_round_aux_mono (m1 e1 m2 e2 : Z) (l1 l2 : location) (v1 v2 : R) :
  0 < m1 -> 0 < m2 ->
  located m1 e1 v1 l1 -> located m2 e2 v2 l2 ->
  e1 <= fexp prec emax (Zdigits2 m1 + e1) ->
  e2 <= fexp prec emax (Zdigits2 m2 + e2) ->
  (v1 <= v2)%R ->
  SFleb (binary_round_aux prec emax false m1 e1 l1)
        (binary_round_aux prec emax false m2 e2 l2) = true.
Proof.
  intros Hm1 Hm2 H1 H2 He1 He2 Hv.
  destruct (binary_round_aux_located false m1 e1 l1 v1 Hm1 H1 He1)
    as (n1 & k1 & L1 & B1 & _ & ->).
  destruct (binary_round_aux_located false m2 e2 l2 v2 Hm2 H2 He2)
    as (n2 & k2 & L2 & B2 & N2 & ->).
  pose proof (located_magnitude _ _ _ _ Hm1 H1) as (M1 & _).
  pose proof (located_magnitude _ _ _ _ Hm2 H2) as (_ & M2).
  assert (Hmag : Zdigits2 m1 + e1 <= Zdigits2 m2 + e2).
  { assert (Zdigits2 m1 - 1 + e1 < Zdigits2 m2 + e2) by (apply bpow_lt_inv; lra); lia. }
  apply fexp_mono in Hmag.
  pose proof (round_nearest_even_bounds n1 k1).
  pose proof (round_nearest_even_bounds n2 k2).
  change (2 ^ 53) with 9007199254740992 in *.
  change (2 ^ 52) with 4503599627370496 in *.
  apply finish_le;
    try (change (2 ^ 53) with 9007199254740992);
    try (change (2 ^ 52) with 4503599627370496); try lia.
  - apply fexp_ge_emin.
  - destruct (Z.eq_dec (fexp prec emax (Zdigits2 m1 + e1))
                (fexp prec emax (Zdigits2 m2 + e2))) as [Heq|Hne]; [right|left; lia].
    split; [exact Heq|].
    rewrite <- Heq in L2.
    exact (round_nearest_even_mono _ _ _ _ _ _ _ L1 L2 Hv).
Qed.

Lemma Zdigits2_unique (N k : Z) : 2 ^ (k - 1) <= N < 2 ^ k -> 0 < k -> Zdigits2 N = k.
Proof.
  intros (Hlo & Hhi) Hk.
  assert (HN : 0 < N).
  { assert (0 < 2 ^ (k - 1)) by (apply Z.pow_pos_nonneg; lia). lia. }
  pose proof (Zdigits2_bounds N HN) as (Dlo & Dhi).
  pose proof (Zdigits2_nonneg N) as Hd.
  assert (Zdigits2 N <> 0) by (destruct N; cbn; lia).
  destruct (Z.lt_trichotomy (Zdigits2 N) k) as [Hlt|[Heq|Hgt]]; [exfalso|exact Heq|exfalso].
  - assert (2 ^ Zdigits2 N <= 2 ^ (k - 1)) by (apply Z.pow_le_mono_r; lia). lia.
  - assert (2 ^ k <= 2 ^ (Zdigits2 N - 1)) by (apply Z.pow_le_mono_r; lia). lia.
Qed.

Lemma canonical_iff (m : positive) (e : Z) :
  canonical_mantissa prec emax m e = true <->
  -1074 <= e /\ Zdigits2 (Zpos m) <= 53 /\ (-1074 < e -> Zdigits2 (Zpos m) = 53).
Proof.
  unfold canonical_mantissa; rewrite Z.eqb_eq, fexp_unfold.
  cbn [Zdigits2]; lia.
Qed.

Lemma pack_valid (s : bool) (N E : Z) :
  0 <= N < 2 ^ 53 -> -1074 <= E -> (-1074 < E -> 2 ^ 52 <= N) ->
  valid_binary (pack s N E) = true.
Proof.
  intros HN HE Hnorm; unfold pack.
  destruct N as [|p|p]; try reflexivity.
  destruct (Z.leb_spec E 971); [|reflexivity].
  cbn [valid_binary]; unfold bounded.
  apply andb_true_iff; split; [|apply Z.leb_le; exact H].
  apply canonical_iff; split; [exact HE|].
  split.
  - apply Zdigits2_le_of_lt; lia.
  - intros HE'; apply Zdigits2_unique; [|lia].
    change (53 - 1) with 52; split; [apply Hnorm, HE' | lia].
Qed.

Lemma finish_valid (s : bool) (N E : Z) :
  0 <= N <= 2 ^ 53 -> -1074 <= E -> (-1074 < E -> 2 ^ 52 <= N) ->
  valid_binary (finish s N E) = true.
Proof.
  intros HN HE Hnorm; unfold finish.
  change (2 ^ 53) with 9007199254740992 in *.
  change (2 ^ 52) with 4503599627370496 in *.
  destruct (Z.eqb_spec N 9007199254740992).
  - apply pack_valid; change (2 ^ 53) with 9007199254740992;
      change (2 ^ 52) with 4503599627370496; lia.
  - apply pack_valid; change (2 ^ 53) with 9007199254740992;
      change (2 ^ 52) with 4503599627370496; lia.
Qed.

Lemma binary_round_aux_valid (s : bool) (m e : Z) (l : location) (v : R) :
  0 < m -> located m e v l ->
  e <= fexp prec emax (Zdigits2 m + e) ->
  valid_binary (binary_round_aux prec emax s m e l) = true.
Proof.
  intros Hm H He.
  destruct (binary_round_aux_located s m e l v Hm H He) as (n & k & _ & B & N & ->).
  pose proof (round_nearest_even_bounds n k).
  apply finish_valid; [lia | apply fexp_ge_emin | intros HE; specialize (N HE); lia].
Qed.

Lemma value_pos (m : positive) (e : Z) : (0 < SF_value m e)%R.
Proof.
  unfold SF_value; pose proof (bpow_pos e).
  assert (1 <= IZR (Z.pos m))%R by (apply IZR_le; lia). nra.
Qed.

(** On canonical floats the comparison compares the values. *)
Lemma SFleb_value (m1 m2 : positive) (e1 e2 : Z) :
  valid_binary (S754_finite false m1 e1) = true ->
  valid_binary (S754_finite false m2 e2) = true ->
  SFleb (S754_finite false m1 e1) (S754_finite false m2 e2) = true ->
  (SF_value m1 e1 <= SF_value m2 e2)%R.
Proof.
  cbn [valid_binary]; unfold bounded; rewrite !andb_true_iff.
  intros (C1 & _) (C2 & _); apply canonical_iff in C1, C2.
  destruct C1 as (E1 & D1 & _), C2 as (E2 & D2 & N2).
  unfold SFleb; cbn [SFcompare]; unfold SF_value.
  destruct (Z.compare_spec e1 e2) as [->|Hlt|Hgt]; [| |discriminate].
  - change (Pos.compare_cont Eq m1 m2) with (Pos.compare m1 m2).
    destruct (Pos.compare_spec m1 m2) as [->|Hm|Hm]; try discriminate; intros _.
    + lra.
    + pose proof (bpow_pos e2).
      assert (IZR (Z.pos m1) <= IZR (Z.pos m2))%R by (apply IZR_le; lia). nra.
  - intros _.
    pose proof (Zdigits2_bounds (Z.pos m1) ltac:(lia)) as (_ & H1).
    pose proof (Zdigits2_bounds (Z.pos m2) ltac:(lia)) as (H2 & _).
    rewrite N2 in H2 by lia; change (2 ^ (53 - 1)) with (2 ^ 52) in H2.
    assert (H1' : Z.pos m1 < 2 ^ 53).
    { apply Z.lt_le_trans with (1 := H1), Z.pow_le_mono_r; lia. }
    apply IZR_lt in H1'; apply IZR_le in H2.
    rewrite <- !bpow_IZR in H1', H2 by lia.
    pose proof (bpow_le (53 + e1) (52 + e2) ltac:(lia)) as Hb.
    rewrite !bpow_add in Hb.
    pose proof (bpow_pos e1); pose proof (bpow_pos e2).
    pose proof (bpow_pos 53); pose proof (bpow_pos 52).
    set (a := IZR (Z.pos m1)) in *; set (b := IZR (Z.pos m2)) in *.
    set (p1 := bpow e1) in *; set (p2 := bpow e2) in *.
    set (q1 := bpow 53) in *; set (q2 := bpow 52) in *.
    clearbody a b p1 p2 q1 q2.
    assert (a * p1 <= q1 * p1)%R by nra.
    assert (q2 * p2 <= b * p2)%R by nra.
    lra.
Qed.

Lemma valid_finite (s : bool) (m : positive) (e : Z) :
  valid_binary (S754_finite s m e) = true ->
  -1074 <= e <= 971 /\ 0 < Zdigits2 (Zpos m) <= 53
  /\ (-1074 < e -> Zdigits2 (Zpos m) = 53).
Proof.
  cbn [valid_binary]; unfold bounded; rewrite andb_true_iff.
  intros (C & B); apply canonical_iff in C; apply Z.leb_le in B.
  change (emax - prec) with 971 in B.
  cbn [Zdigits2] in *; lia.
Qed.

Lemma Zdigits2_mul (a b : positive) :
  Zdigits2 (Zpos a) + Zdigits2 (Zpos b) - 1 <= Zdigits2 (Zpos (a * b)).
Proof.
  pose proof (Zdigits2_bounds (Zpos a) ltac:(lia)) as (A & _).
  pose proof (Zdigits2_bounds (Zpos b) ltac:(lia)) as (B & _).
  pose proof (Zdigits2_bounds (Zpos (a * b)) ltac:(lia)) as (_ & C).
  assert (Da : 0 < Zdigits2 (Zpos a)) by (cbn; lia).
  assert (Db : 0 < Zdigits2 (Zpos b)) by (cbn; lia).
  assert (Dc : 0 < Zdigits2 (Zpos (a * b))) by (cbn; lia).
  assert (P : 2 ^ (Zdigits2 (Z.pos a) - 1) * 2 ^ (Zdigits2 (Z.pos b) - 1)
              <= Z.pos a * Z.pos b).
  { apply Z.mul_le_mono_nonneg; try assumption; apply Z.pow_nonneg; lia. }
  rewrite <- Z.pow_add_r in P by lia.
  rewrite <- Pos2Z.inj_mul in P.
  assert (Hlt : 2 ^ (Zdigits2 (Z.pos a) - 1 + (Zdigits2 (Z.pos b) - 1))
                < 2 ^ Zdigits2 (Z.pos (a * b)))
    by (apply Z.le_lt_trans with (1 := P); exact C).
  apply Z.pow_lt_mono_r_iff in Hlt; lia.
Qed.

Lemma mul_enough_digits (sa sb : bool) (ma mb : positive) (ea eb : Z) :
  valid_binary (S754_finite sa ma ea) = true ->
  valid_binary (S754_finite sb mb eb) = true ->
  ea + eb <= fexp prec emax (Zdigits2 (Zpos (ma * mb)) + (ea + eb)).
Proof.
  intros Va Vb; apply valid_finite in Va, Vb.
  pose proof (Zdigits2_mul ma mb) as Hd; rewrite fexp_unfold.
  set (da := Zdigits2 (Z.pos ma)) in *; set (db := Zdigits2 (Z.pos mb)) in *.
  set (dab := Zdigits2 (Z.pos (ma * mb))) in *.
  clearbody da db dab; lia.
Qed.

Lemma located_product (ma mb : positive) (ea eb : Z) :
  located (Zpos (ma * mb)) (ea + eb) (SF_value ma ea * SF_value mb eb) loc_Exact.
Proof.
  cbn [located]; unfold SF_value.
  rewrite Pos2Z.inj_mul, mult_IZR, bpow_add; ring.
Qed.

Lemma SFleb_zero_pack (s : bool) (N E : Z) :
  0 <= N -> SFleb (S754_zero s) (pack false N E) = true.
Proof.
  intros HN; unfold pack; destruct N as [|p|p]; try lia; try reflexivity.
  destruct (E <=? 971); reflexivity.
Qed.

Lemma SFleb_zero_finish (s : bool) (N E : Z) :
  0 <= N -> SFleb (S754_zero s) (finish false N E) = true.
Proof.
  intros HN; unfold finish.
  destruct (N =? 9007199254740992); apply SFleb_zero_pack; lia.
Qed.

Lemma SFleb_pack_inf (N E : Z) :
  0 <= N -> SFleb (pack false N E) (S754_infinity false) = true.
Proof.
  intros HN; unfold pack; destruct N as [|p|p]; try lia; try reflexivity.
  destruct (E <=? 971); reflexivity.
Qed.

Lemma SFleb_finish_inf (N E : Z) :
  0 <= N -> SFleb (finish false N E) (S754_infinity false) = true.
Proof.
  intros HN; unfold finish.
  destruct (N =? 9007199254740992); apply SFleb_pack_inf; lia.
Qed.

(** A rounded non-negative number is between 0 and infinity. *)
Lemma binary_round_aux_nonneg (m e : Z) (l : location) (v : R) (s : bool) :
  0 < m -> located m e v l ->
  e <= fexp prec emax (Zdigits2 m + e) ->
  SFleb (S754_zero s) (binary_round_aux prec emax false m e l) = true
  /\ SFleb (binary_round_aux prec emax false m e l) (S754_infinity false) = true.
Proof.
  intros Hm H He.
  destruct (binary_round_aux_located false m e l v Hm H He) as (n & k & _ & B & _ & ->).
  pose proof (round_nearest_even_bounds n k).
  split; [apply SFleb_zero_finish | apply SFleb_finish_inf]; lia.
Qed.

Lemma nonneg_cases (x : spec_float) :
  SF_nonneg x ->
  (exists s, x = S754_zero s) \/ (exists m e, x = S754_finite false m e)
  \/ x = S754_infinity false.
Proof.
  unfold SF_nonneg; destruct x as [s|s| |s m e]; try discriminate.
  - intros _; left; eauto.
  - destruct s; [discriminate|]; auto.
  - destruct s; [discriminate|]; intros _; right; left; eauto.
Qed.

(** The product of non-negative floats is monotone. *)
Theorem SFmul_mono (a a' b b' : spec_float) :
  valid_binary a = true -> valid_binary a' = true ->
  valid_binary b = true -> valid_binary b' = true ->
  SF_nonneg a -> SFleb a a' = true ->
  (exists m e, b = S754_finite false m e) ->
  (exists m e, b' = S754_finite false m e) ->
  SFleb b b' = true ->
  SFleb (SFmul prec emax a b) (SFmul prec emax a' b') = true.
Proof.
  intros Va Va' Vb Vb' Ha Haa (mb & eb & ->) (mb' & eb' & ->) Hbb.
  pose proof (SFleb_value _ _ _ _ Vb Vb' Hbb) as Hvb.
  destruct (nonneg_cases a Ha) as [(s & ->)|[(ma & ea & ->)| ->]].
  - (* a is zero *)
    destruct a' as [s'|s'| |s' ma' ea']; try discriminate; cbn [SFmul xorb].
    + reflexivity.
    + destruct s'; [discriminate|]; rewrite xorb_false_r; reflexivity.
    + destruct s'; [discriminate|]; cbn [xorb].
      rewrite xorb_false_r.
      refine (proj1 (binary_round_aux_nonneg _ _ _ _ s (Pos2Z.pos_is_pos _)
                       (located_product ma' mb' ea' eb') _)).
      apply (mul_enough_digits false false); assumption.
  - (* a is finite *)
    destruct a' as [s'|s'| |s' ma' ea']; try discriminate; cbn [SFmul xorb].
    + destruct s'; [discriminate|]; cbn [xorb].
      refine (proj2 (binary_round_aux_nonneg _ _ _ _ false (Pos2Z.pos_is_pos _)
                       (located_product ma mb ea eb) _)).
      apply (mul_enough_digits false false); assumption.
    + destruct s'; [discriminate|]; cbn [xorb].
      pose proof (SFleb_value _ _ _ _ Va Va' Haa) as Hva.
      apply (binary_round_aux_mono _ _ _ _ _ _ _ _ (Pos2Z.pos_is_pos _)
               (Pos2Z.pos_is_pos _)
               (located_product ma mb ea eb) (located_product ma' mb' ea' eb')).
      * apply (mul_enough_digits false false); assumption.
      * apply (mul_enough_digits false false); assumption.
      * pose proof (value_pos ma ea); pose proof (value_pos mb eb).
        pose proof (value_pos ma' ea'); pose proof (value_pos mb' eb').
        nra.
  - (* a is infinite *)
    destruct a' as [s'|s'| |s' ma' ea']; try discriminate.
    destruct s'; [discriminate|]; reflexivity.
Qed.

(** ** The quotient by 100 *)

Lemma bpow_opp (s : Z) : 0 <= s -> (IZR (2 ^ s) * bpow (- s) = 1)%R.
Proof.
  intros Hs; rewrite <- bpow_IZR by assumption.
  rewrite <- bpow_add; replace (s + - s) with 0 by lia; reflexivity.
Qed.

Lemma div100_core (N : Z) :
  0 < N ->
  exists q e l,
    SFdiv_core_binary prec emax N 0 100 0 = (q, e, l)
    /\ 0 < q /\ located q e (IZR N / 100) l
    /\ e <= fexp prec emax (Zdigits2 q + e).
Proof.
  intros HN; unfold SFdiv_core_binary.
  change (Zdigits2 100) with 7.
  rewrite !Z.add_0_r, Z.sub_diag, fexp_unfold.
  pose proof (Zdigits2_bounds N HN) as (Dlo & Dhi).
  assert (Hd : 0 < Zdigits2 N) by (destruct N; cbn; lia).
  set (d := Zdigits2 N) in *.
  set (e := Z.min (Z.max (d - 7 - 53) (-1074)) 0).
  assert (He : e = Z.min (d - 60) 0) by (unfold e; lia).
  set (s := 0 - e).
  assert (Hs : 0 <= s /\ s = - e /\ 59 <= d - 1 + s) by (unfold s; lia).
  destruct Hs as (Hs0 & Hse & Hs59).
  set (m' := match s with Z.pos _ => Z.shiftl N s | 0 => N | Z.neg _ => 0 end).
  assert (Hm' : m' = N * 2 ^ s).
  { unfold m'; destruct s as [|p|p] eqn:Es; [lia| |lia].
    apply Z.shiftl_mul_pow2; lia. }
  clearbody m'.
  assert (H59 : 2 ^ 59 <= m').
  { rewrite Hm'.
    apply Z.le_trans with (2 ^ (d - 1) * 2 ^ s).
    - rewrite <- Z.pow_add_r by lia; apply Z.pow_le_mono_r; lia.
    - apply Z.mul_le_mono_nonneg_r; [apply Z.pow_nonneg; lia | exact Dlo]. }
  change (2 ^ 59) with 576460752303423488 in H59.
  pose proof (Z.div_mod m' 100 ltac:(lia)) as Hdm.
  pose proof (Z.mod_pos_bound m' 100 ltac:(lia)) as Hr.
  unfold Z.div_eucl at 1.
  assert (Hde : Z.div_eucl m' 100 = (m' / 100, m' mod 100)).
  { unfold Z.div, Z.modulo; destruct (Z.div_eucl m' 100); reflexivity. }
  fold (Z.div_eucl m' 100); rewrite Hde.
  set (q := m' / 100) in *; set (r := m' mod 100) in *.
  exists q, e, (new_location 100 r); split; [reflexivity|].
  assert (Hq : 2 ^ 52 <= q).
  { unfold q; apply Z.div_le_lower_bound; [lia|].
    change (2 ^ 52) with 4503599627370496; lia. }
  split; [change (2 ^ 52) with 4503599627370496 in Hq; lia|].
  split.
  - (* the location *)
    assert (Hv : (IZR N / 100 = (IZR q + IZR r / 100) * bpow e)%R).
    { assert (Hb : (IZR (2 ^ s) * bpow e = 1)%R)
        by (replace e with (- s) by lia; apply bpow_opp, Hs0).
      assert (HN' : (IZR N * IZR (2 ^ s) = 100 * IZR q + IZR r)%R).
      { rewrite <- mult_IZR, <- Hm', Hdm, plus_IZR, mult_IZR; reflexivity. }
      set (P := IZR (2 ^ s)) in *; set (b := bpow e) in *.
      assert (b <> 0)%R by (pose proof (bpow_pos e); unfold b; lra).
      assert (P <> 0)%R by (intros HP; rewrite HP in Hb; lra).
      assert (HNb : (IZR N = (100 * IZR q + IZR r) * b)%R).
      { rewrite <- HN'; rewrite Rmult_assoc, Hb; ring. }
      rewrite HNb; field. }
    rewrite Hv.
    pose proof (bpow_pos e) as Hb.
    unfold new_location; change (Z.even 100) with true; cbv iota.
    unfold new_location_even.
    destruct (Z.eqb_spec r 0) as [Hr0|Hr0].
    + cbn [located]; rewrite Hr0; lra.
    + assert (Hrpos : (0 < IZR r)%R) by (apply IZR_lt; lia).
      destruct (Z.compare_spec (2 * r) 100) as [Hc|Hc|Hc]; cbn [located].
      * assert (IZR r = 50)%R by (apply IZR_eq; lia). nra.
      * assert (IZR r < 50)%R by (apply IZR_lt; lia). nra.
      * assert (50 < IZR r)%R by (apply IZR_lt; lia).
        assert (IZR r < 100)%R by (apply IZR_lt; lia). nra.
  - (* enough digits *)
    assert (Hdq : 53 <= Zdigits2 q).
    { assert (0 < q) by (change (2 ^ 52) with 4503599627370496 in Hq; lia).
      pose proof (Zdigits2_bounds q H) as (_ & Hhi).
      assert (Hlt : 2 ^ 52 < 2 ^ Zdigits2 q) by lia.
      apply Z.pow_lt_mono_r_iff in Hlt; [lia|lia|apply Zdigits2_nonneg]. }
    rewrite fexp_unfold; lia.
Qed.

(** ** Rounding to hundredths *)

Lemma hundredths_real (m : positive) (e : Z) :
  let N := PyFloat.hundredths m e in
  0 <= N
  /\ (2 * IZR N - 1 <= 200 * SF_value m e <= 2 * IZR N + 1)%R
  /\ ((200 * SF_value m e = 2 * IZR N + 1)%R \/ (200 * SF_value m e = 2 * IZR N - 1)%R ->
      Z.even N = true).
Proof.
  cbv zeta; destruct (hundredths_nearest m e) as (H0 & H).
  split; [exact H0|].
  set (N := PyFloat.hundredths m e) in *; clearbody N.
  unfold SF_value.
  destruct e as [|p|k].
  - rewrite H; change (bpow 0) with 1%R.
    rewrite !mult_IZR; change (IZR (2 ^ 0)) with 1%R.
    split; [lra|]; intros [E|E]; exfalso; lra.
  - rewrite H, bpow_IZR by lia.
    rewrite !mult_IZR.
    split; [lra|]; intros [E|E]; exfalso; lra.
  - cbv zeta in H; destruct H as (Hb & Htie).
    assert (HP : 0 < 2 ^ Z.pos k) by (apply Z.pow_pos_nonneg; lia).
    pose proof (bpow_opp (Z.pos k) ltac:(lia)) as Hpb.
    change (- Z.pos k) with (Z.neg k) in Hpb.
    pose proof (bpow_pos (Z.neg k)) as Hbp.
    set (P := 2 ^ Z.pos k) in *.
    set (err := N * P - 100 * Z.pos m) in *.
    assert (Herr : (IZR err = IZR N * IZR P - 100 * IZR (Z.pos m))%R).
    { unfold err; rewrite minus_IZR, !mult_IZR; reflexivity. }
    assert (Hlo : (- IZR P <= 2 * IZR err)%R).
    { rewrite <- opp_IZR, <- mult_IZR; apply IZR_le; lia. }
    assert (Hhi : (2 * IZR err <= IZR P)%R).
    { rewrite <- mult_IZR; apply IZR_le; lia. }
    assert (HPpos : (0 < IZR P)%R) by (apply IZR_lt; exact HP).
    set (p := IZR P) in *; set (b := bpow (Z.neg k)) in *.
    set (x := IZR (Z.pos m)) in *; set (n := IZR N) in *; set (r := IZR err) in *.
    assert (Hx : (100 * (x * b) = n - r * b)%R).
    { assert (100 * x = n * p - r)%R by lra.
      assert (n * p * b = n)%R by (rewrite Rmult_assoc, Hpb; ring).
      replace (100 * (x * b))%R with ((100 * x) * b)%R by ring.
      rewrite H; lra. }
    assert (Hrb : (-1 <= 2 * (r * b) <= 1)%R) by (split; nra).
    split; [lra|].
    intros Ht; apply Htie.
    assert (Hr : (2 * r = p \/ 2 * r = - p)%R).
    { destruct Ht as [E|E].
      - right; assert (2 * (r * b) = -1)%R by lra. nra.
      - left; assert (2 * (r * b) = 1)%R by lra. nra. }
    unfold r, p in Hr; rewrite <- opp_IZR, <- mult_IZR in Hr.
    destruct Hr as [Hr|Hr]; apply eq_IZR in Hr; lia.
Qed.

Lemma hundredths_mono (m1 m2 : positive) (e1 e2 : Z) :
  (SF_value m1 e1 <= SF_value m2 e2)%R ->
  PyFloat.hundredths m1 e1 <= PyFloat.hundredths m2 e2.
Proof.
  intros Hv.
  destruct (hundredths_real m1 e1) as (_ & (L1 & _) & T1).
  destruct (hundredths_real m2 e2) as (_ & (_ & U2) & T2).
  cbv zeta in *.
  set (N1 := PyFloat.hundredths m1 e1) in *; set (N2 := PyFloat.hundredths m2 e2) in *.
  destruct (Z.le_gt_cases N1 N2) as [|Hgt]; [assumption|exfalso].
  assert (Hn : (IZR N2 + 1 <= IZR N1)%R) by (rewrite <- plus_IZR; apply IZR_le; lia).
  assert (E1 : (200 * SF_value m1 e1 = 2 * IZR N1 - 1)%R) by lra.
  assert (E2 : (200 * SF_value m2 e2 = 2 * IZR N2 + 1)%R) by lra.
  assert (EN : (IZR N1 = IZR N2 + 1)%R) by lra.
  rewrite <- plus_IZR in EN; apply eq_IZR in EN.
  specialize (T1 (or_intror E1)); specialize (T2 (or_introl E2)).
  rewrite EN, Z.even_add, T2 in T1; discriminate.
Qed.

(** A finite float rounds to zero or to the rounded quotient of its
    hundredths by 100. *)
Lemma round2_SF_finite (s : bool) (m : positive) (e : Z) :
  (PyFloat.hundredths m e = 0 /\ PyFloat.round2_SF (S754_finite s m e) = S754_zero s)
  \/ (0 < PyFloat.hundredths m e
      /\ exists q e' l,
           0 < q
           /\ located q e' (IZR (PyFloat.hundredths m e) / 100) l
           /\ e' <= fexp prec emax (Zdigits2 q + e')
           /\ PyFloat.round2_SF (S754_finite s m e)
              = binary_round_aux prec emax s q e' l).
Proof.
  destruct (hundredths_nearest m e) as (H0 & _).
  cbn [PyFloat.round2_SF].
  destruct (PyFloat.hundredths m e) as [|n|n] eqn:EN; [left; auto| |lia].
  right; split; [lia|].
  destruct (div100_core (Z.pos n) ltac:(lia)) as (q & e' & l & Hcore & Hq & Hloc & Hen).
  exists q, e', l; repeat split; try assumption.
  cbn [SFdiv]; rewrite Hcore, xorb_false_r; reflexivity.
Qed.

Lemma round2_SF_valid (x : spec_float) :
  valid_binary (PyFloat.round2_SF x) = true.
Proof.
  destruct x as [s|s| |s m e]; try reflexivity.
  destruct (round2_SF_finite s m e) as [(_ & ->)|(_ & q & e' & l & Hq & Hloc & Hen & ->)];
    [reflexivity|].
  exact (binary_round_aux_valid s q e' l _ Hq Hloc Hen).
Qed.

(** Rounding to two decimals is monotone on the non-negative floats. *)
Theorem round2_SF_mono (x y : spec_float) :
  valid_binary x = true -> valid_binary y = true ->
  SF_nonneg x -> SFleb x y = true ->
  SFleb (PyFloat.round2_SF x) (PyFloat.round2_SF y) = true.
Proof.
  intros Vx Vy Hx Hxy.
  destruct (nonneg_cases x Hx) as [(s & ->)|[(m & e & ->)| ->]].
  - (* zero *)
    destruct y as [s'|s'| |s' m' e']; try discriminate.
    + reflexivity.
    + destruct s'; [discriminate|reflexivity].
    + destruct s'; [discriminate|].
      destruct (round2_SF_finite false m' e')
        as [(_ & ->)|(_ & q & e1 & l & Hq & Hloc & Hen & ->)]; [reflexivity|].
      exact (proj1 (binary_round_aux_nonneg q e1 l _ s Hq Hloc Hen)).
  - (* finite *)
    destruct y as [s'|s'| |s' m' e']; try discriminate.
    + destruct s'; [discriminate|].
      destruct (round2_SF_finite false m e)
        as [(_ & ->)|(_ & q & e1 & l & Hq & Hloc & Hen & ->)]; [reflexivity|].
      exact (proj2 (binary_round_aux_nonneg q e1 l _ false Hq Hloc Hen)).
    + destruct s'; [discriminate|].
      pose proof (hundredths_mono _ _ _ _ (SFleb_value _ _ _ _ Vx Vy Hxy)) as HN.
      destruct (round2_SF_finite false m e)
        as [(_ & ->)|(H1 & q1 & e1 & l1 & Hq1 & Hloc1 & Hen1 & ->)].
      * destruct (round2_SF_finite false m' e')
          as [(_ & ->)|(_ & q & e1 & l & Hq & Hloc & Hen & ->)]; [reflexivity|].
        exact (proj1 (binary_round_aux_nonneg q e1 l _ false Hq Hloc Hen)).
      * destruct (round2_SF_finite false m' e')
          as [(H2 & _)|(H2 & q2 & e2 & l2 & Hq2 & Hloc2 & Hen2 & ->)]; [lia|].
        apply (binary_round_aux_mono _ _ _ _ _ _ _ _ Hq1 Hq2 Hloc1 Hloc2 Hen1 Hen2).
        apply IZR_le in HN; lra.
  - (* infinity *)
    destruct y as [s'|s'| |s' m' e']; try discriminate.
    destruct s'; [discriminate|reflexivity].
Qed.

(** ** Primitive floats *)

Lemma Prim2SF_round2 (x : float) :
  Prim2SF (PyFloat.round2 x) = PyFloat.round2_SF (Prim2SF x).
Proof. unfold PyFloat.round2; apply Prim2SF_SF2Prim, round2_SF_valid. Qed.

Theorem round2_mono (x y : float) :
  (0 <=? x)%float = true -> (x <=? y)%float = true ->
  (PyFloat.round2 x <=? PyFloat.round2 y)%float = true.
Proof.
  rewrite !leb_spec, !Prim2SF_round2; intros H0 Hxy.
  apply round2_SF_mono; try apply Prim2SF_valid; assumption.
Qed.

Lemma positive_finite (b : float) :
  (0 <? b)%float = true -> (b <? infinity)%float = true ->
  exists m e, Prim2SF b = S754_finite false m e.
Proof.
  rewrite !ltb_spec.
  change (Prim2SF 0) with (S754_zero false).
  change (Prim2SF infinity) with (S754_infinity false).
  destruct (Prim2SF b) as [s|s| |s m e]; try discriminate.
  - destruct s; discriminate.
  - destruct s; [discriminate|]; intros _ _; eauto.
Qed.

Lemma leb_lt_infinity (b b' : float) :
  (b <=? b')%float = true -> (b' <? infinity)%float = true ->
  (b <? infinity)%float = true.
Proof.
  rewrite leb_spec, !ltb_spec.
  change (Prim2SF infinity) with (S754_infinity false).
  destruct (Prim2SF b) as [[|]|[|]| |[|] m e], (Prim2SF b') as [[|]|[|]| |[|] m' e'];
    intros H1 H2; try reflexivity; try discriminate H1; discriminate H2.
Qed.

Lemma ltb_leb_trans (b c : float) :
  (0 <? b)%float = true -> (b <=? c)%float = true -> (0 <? c)%float = true.
Proof.
  rewrite leb_spec, !ltb_spec.
  change (Prim2SF 0) with (S754_zero false).
  destruct (Prim2SF b) as [[|]|[|]| |[|] m e], (Prim2SF c) as [[|]|[|]| |[|] m' e'];
    intros H1 H2; try reflexivity; try discriminate H1; discriminate H2.
Qed.

(** The product of non-negative floats is monotone in both factors. *)
Theorem mul_mono (a a' b b' : float) :
  (0 <=? a)%float = true -> (a <=? a')%float = true ->
  (0 <? b)%float = true -> (b <=? b')%float = true ->
  (b' <? infinity)%float = true ->
  (a * b <=? a' * b')%float = true.
Proof.
  intros Ha Haa Hb Hbb Hb'.
  pose proof (positive_finite b Hb (leb_lt_infinity _ _ Hbb Hb')) as Fb.
  pose proof (positive_finite b' (ltb_leb_trans b b' Hb Hbb) Hb') as Fb'.
  rewrite leb_spec in Ha, Haa, Hbb.
  change (Prim2SF 0) with (S754_zero false) in Ha.
  rewrite leb_spec, !mul_spec.
  exact (SFmul_mono _ _ _ _ (Prim2SF_valid a) (Prim2SF_valid a') (Prim2SF_valid b)
           (Prim2SF_valid b') Ha Haa Fb Fb' Hbb).
Qed.

Lemma mul_nonneg (a b : float) :
  (0 <=? a)%float = true -> (0 <? b)%float = true -> (b <? infinity)%float = true ->
  (0 <=? a * b)%float = true.
Proof.
  intros Ha Hb Hb'.
  destruct (positive_finite b Hb Hb') as (m & e & Eb).
  rewrite leb_spec in Ha; rewrite leb_spec, mul_spec, Eb.
  change (Prim2SF 0) with (S754_zero false) in *.
  pose proof (Prim2SF_valid a) as Va; pose proof (Prim2SF_valid b) as Vb.
  rewrite Eb in Vb.
  destruct (nonneg_cases _ Ha) as [(s & Ea)|[(ma & ea & Ea)| Ea]];
    rewrite Ea in *; cbn [SFmul xorb].
  - reflexivity.
  - refine (proj1 (binary_round_aux_nonneg _ _ _ _ false (Pos2Z.pos_is_pos _)
                     (located_product ma m ea e) _)).
    apply (mul_enough_digits false false); assumption.
  - reflexivity.
Qed.

(** ** The float of a non-negative integer *)

Lemma iter_xO_value (p d : positive) :
  Zpos (Pos.iter xO p d) = Zpos p * 2 ^ Zpos d.
Proof.
  induction d as [|d IH] using Pos.peano_ind.
  - cbn [Pos.iter]; lia.
  - rewrite Pos.iter_succ, Pos2Z.inj_xO, IH, Pos2Z.inj_succ, Z.pow_succ_r by lia.
    ring.
Qed.

Lemma iter_xO_digits (p d : positive) :
  Zdigits2 (Zpos (Pos.iter xO p d)) = Zdigits2 (Zpos p) + Zpos d.
Proof.
  cbn [Zdigits2].
  induction d as [|d IH] using Pos.peano_ind.
  - cbn [Pos.iter digits2_pos]; lia.
  - rewrite Pos.iter_succ; cbn [digits2_pos].
    rewrite Pos2Z.inj_succ, IH, Pos2Z.inj_succ; lia.
Qed.

(** The rounding of a positive integer. *)
Lemma binary_round_positive (p : positive) :
  exists m e,
    binary_round prec emax false p 0 = binary_round_aux prec emax false m e loc_Exact
    /\ 0 < m /\ located m e (IZR (Zpos p)) loc_Exact
    /\ e <= fexp prec emax (Zdigits2 m + e).
Proof.
  unfold binary_round, shl_align.
  rewrite Z.add_0_r.
  set (E := fexp prec emax (Z.pos (digits2_pos p))).
  destruct (E - 0) as [|d|d] eqn:Ed.
  - exists (Zpos p), 0; repeat split; try lia.
    + cbn [located]; change (bpow 0) with 1%R; ring.
    + rewrite Z.add_0_r; cbn [Zdigits2]; fold E; lia.
  - exists (Zpos p), 0; repeat split; try lia.
    + cbn [located]; change (bpow 0) with 1%R; ring.
    + rewrite Z.add_0_r; cbn [Zdigits2]; fold E; lia.
  - exists (Zpos (Pos.iter xO p d)), E; repeat split; try lia.
    + cbn [located]; rewrite iter_xO_value, mult_IZR.
      replace E with (- Z.pos d) by lia.
      rewrite Rmult_assoc, bpow_opp by lia; ring.
    + rewrite iter_xO_digits.
      replace (Zdigits2 (Z.pos p) + Z.pos d + E) with (Zdigits2 (Z.pos p)) by lia.
      cbn [Zdigits2]; fold E; lia.
Qed.

Lemma of_int_nonneg (n : Z) (x : float) :
  0 <= n -> PyFloat.of_int n = Ok x -> (0 <=? x)%float = true.
Proof.
  intros Hn H; apply of_int_Ok in H; subst x.
  rewrite leb_spec; change (Prim2SF 0) with (S754_zero false).
  destruct n as [|p|p]; [reflexivity| |lia].
  cbn [binary_normalize].
  destruct (binary_round_positive p) as (m & e & -> & Hm & Hloc & Hen).
  rewrite Prim2SF_SF2Prim by exact (binary_round_aux_valid _ _ _ _ _ Hm Hloc Hen).
  exact (proj1 (binary_round_aux_nonneg _ _ _ _ false Hm Hloc Hen)).
Qed.

Lemma rent_nonneg (a : pynum) (x : float) :
  py_le (PyInt 0) a = true -> PyFloat.to_float a = Ok x -> (0 <=? x)%float = true.
Proof.
  destruct a as [n|y]; intros Hle H.
  - apply Z.leb_le in Hle; exact (of_int_nonneg n x Hle H).
  - assert (E : y = x) by (cbn in H; congruence).
    subst x; unfold py_le in Hle.
    rewrite leb_spec; change (Prim2SF 0) with (S754_zero false).
    destruct (Prim2SF y) as [s|[|]| |[|] m e]; try reflexivity;
      try discriminate Hle.
    exfalso; cbn [Z_compare_SF] in Hle.
    assert (Hneg : Z.neg m * 2 ^ e < 0).
    { assert (0 <= 2 ^ e) by (apply Z.pow_nonneg; lia).
      destruct (Z.eq_dec (2 ^ e) 0) as [E0|E0].
      - destruct e; cbn in Hle; try discriminate Hle.
        assert (0 < 2 ^ Z.pos p) by (apply Z.pow_pos_nonneg; lia). lia.
      - nia. }
    destruct e as [|p|p].
    + discriminate Hle.
    + destruct (Z.compare_spec 0 (Z.neg m * 2 ^ Z.pos p)); try discriminate Hle; lia.
    + discriminate Hle.
Qed.

Lemma leb_refl_nonneg (x : float) : (0 <=? x)%float = true -> (x <=? x)%float = true.
Proof.
  rewrite !leb_spec; change (Prim2SF 0) with (S754_zero false).
  destruct (Prim2SF x) as [s|[|]| |[|] m e]; try discriminate; try reflexivity.
  intros _; unfold SFleb; rewrite SFcompare_refl_finite; reflexivity.
Qed.

(** ** Consecutive years *)

Lemma end_before_next_start (y : Z) :
  Calendar.end_of_year y < Calendar.start_of_year (y + 1).
Proof.
  pose proof (year_span y) as Hspan.
  assert (Hnext : Calendar.days_before_year (y + 1) - Calendar.days_before_year y
                  = if Calendar.is_leap y then 366 else 365).
  { unfold Calendar.days_before_year, Calendar.is_leap; cbv zeta.
    replace (y + 1 - 1) with y by lia.
    destruct (Z.eqb_spec (y mod 4) 0), (Z.eqb_spec (y mod 100) 0),
      (Z.eqb_spec (y mod 400) 0); cbn [andb orb negb];
      Z.to_euclidean_division_equations; lia. }
  unfold Calendar.start_of_year, Calendar.Timestamp_of_date, Calendar.ordinal in *.
  change (Calendar.days_before_month (y + 1) 1) with 0.
  change (Calendar.days_before_month y 1) with 0 in Hspan.
  unfold Calendar.ns_per_day in *.
  destruct (Calendar.is_leap y); lia.
Qed.

Lemma classify_Reversion (row : LeaseRow) (y : Z) :
  classify row y = Reversion <-> Lease_End row < Calendar.start_of_year y.
Proof.
  unfold classify.
  destruct (Z.ltb_spec (Lease_End row) (Calendar.start_of_year y)).
  - split; auto.
  - destruct (Lease_Start row >? Calendar.end_of_year y);
      split; try discriminate; lia.
Qed.

Lemma classify_NotStarted (row : LeaseRow) (y : Z) :
  classify row y = NotStarted <->
  ~ Lease_End row < Calendar.start_of_year y /\ Lease_Start row > Calendar.end_of_year y.
Proof.
  unfold classify.
  destruct (Z.ltb_spec (Lease_End row) (Calendar.start_of_year y)).
  - split; [discriminate | intros [Hn _]; contradiction].
  - destruct (Lease_Start row >? Calendar.end_of_year y) eqn:E.
    + apply Z.gtb_gt in E; split; [intros _; split; lia | reflexivity].
    + split; [discriminate|].
      intros [_ Hs]; apply Z.gtb_gt in Hs; congruence.
Qed.

(** ** Escalation is monotone *)

Section Monotone.

Variable libm_pow : float -> float -> float.
Variable escalation_percent : float.
Variables (row : LeaseRow) (i : nat) (y : Z) (g g' : float).

Hypothesis Hg : escalation libm_pow escalation_percent i = Ok g.
Hypothesis Hg' : escalation libm_pow escalation_percent (S i) = Ok g'.
Hypothesis Hpos : (0 <? g)%float = true.
Hypothesis Hle : (g <=? g')%float = true.
Hypothesis Hfin : (g' <? infinity)%float = true.



End Monotone.



(** * Further properties of the projection *)

(** ** All or nothing *)

Lemma mapM_Ok_all {A B : Type} (f : A -> result B) (l : list A) (bs : list B) :
  mapM f l = Ok bs -> forall a, In a l -> exists b, f a = Ok b /\ In b bs.
Proof.
  revert bs; induction l as [|x l IH]; simpl; intros bs H a Ha; [contradiction|].
  apply bind_Ok in H as (b & Hb & H).
  apply bind_Ok in H as (bs' & Hbs & H).
  injection H as <-.
  destruct Ha as [<-|Ha]; [exists b; simpl; auto|].
  destruct (IH _ Hbs a Ha) as (b' & Hb' & Hin); exists b'; simpl; auto.
Qed.

Lemma mapM_Raise {A B : Type} (f : A -> result B) (l : list A) (e : pyerr) :
  mapM f l = Raise e -> exists a, In a l /\ f a = Raise e.
Proof.
  induction l as [|x l IH]; simpl; [discriminate|].
  destruct (f x) as [b|e'] eqn:Hx; simpl.
  - destruct (mapM f l) as [bs|e'']; simpl; [discriminate|].
    intros H; injection H as <-.
    destruct (IH eq_refl) as (a & Ha & Hfa); exists a; auto.
  - intros H; injection H as <-; exists x; auto.
Qed.

(** The table is built exactly when every row computes: neither the
    constructor nor the insertion of the tenant column raises, an
    exception of the projection is the exception of one of the rows, and a
    table comes with every row computed to ten cells. *)
Theorem no_partial_grid :
  forall libm_pow escalation_percent (df : list LeaseRow) (d : date),
    (forall grid,
        project libm_pow df d escalation_percent = Ok grid ->
        forall row, In row df ->
          exists cells,
            tenant_row libm_pow escalation_percent (years_of d) row = Ok cells
            /\ List.length cells = 10%nat)
    /\ (forall e,
          project libm_pow df d escalation_percent = Raise e ->
          exists row,
            In row df
            /\ tenant_row libm_pow escalation_percent (years_of d) row = Raise e)
    /\ ((forall row, In row df ->
           exists cells,
             tenant_row libm_pow escalation_percent (years_of d) row = Ok cells) ->
        exists grid, project libm_pow df d escalation_percent = Ok grid).
Proof.
  intros libm_pow esc df d; rewrite project_unfold; unfold cashflow_matrix.
  split; [|split].
  - intros grid H row Hrow.
    apply bind_Ok in H as (matrix & Hm & _).
    destruct (mapM_Ok_all _ _ _ Hm row Hrow) as (cells & Hcells & _).
    exists cells; split; [exact Hcells|].
    rewrite (tenant_row_length _ _ _ _ _ Hcells), years_of_unfold; reflexivity.
  - intros e H.
    destruct (mapM (tenant_row libm_pow esc (years_of d)) df) as [m|e'] eqn:Hm;
      simpl in H; [discriminate|].
    injection H as <-; exact (mapM_Raise _ _ _ Hm).
  - intros Hall.
    destruct (mapM (tenant_row libm_pow esc (years_of d)) df) as [m|e'] eqn:Hm;
      simpl; [eauto|].
    destruct (mapM_Raise _ _ _ Hm) as (row & Hrow & Hraise).
    destruct (Hall row Hrow) as (cells & Hcells); congruence.
Qed.

(** ** The regimes along the years *)

Lemma end_of_year_mono (y z : Z) :
  y <= z -> Calendar.end_of_year y <= Calendar.end_of_year z.
Proof.
  intros H; destruct (Z.eq_dec y z) as [->|Hne]; [lia|].
  pose proof (end_before_next_start y).
  pose proof (start_of_year_mono (y + 1) z ltac:(lia)).
  pose proof (start_before_end_of_year z).
  lia.
Qed.

(** A unit that has reverted stays reverted in every later year, and a
    lease that has not started in a year has not started in any earlier
    one (when it starts no later than it ends): along the years a row goes
    from not started to in term to reversion, and never back. *)
Theorem regimes_never_go_back :
  forall (row : LeaseRow) (y z : Z),
    y <= z ->
    (classify row y = Reversion -> classify row z = Reversion)
    /\ (Lease_Start row <= Lease_End row ->
        classify row z = NotStarted -> classify row y = NotStarted)
    /\ (Lease_Start row <= Lease_End row ->
        classify row y = InTerm -> classify row z <> NotStarted).
Proof.
  intros row y z Hyz.
  pose proof (start_of_year_mono y z Hyz) as Hs.
  pose proof (end_of_year_mono y z Hyz) as He.
  pose proof (start_before_end_of_year y) as Hy.
  pose proof (start_before_end_of_year z) as Hz.
  split; [|split].
  - intros H; apply classify_Reversion in H; apply classify_Reversion; lia.
  - intros Hle H; apply classify_NotStarted in H; apply classify_NotStarted; lia.
  - intros Hle H Hn; apply classify_InTerm in H; apply classify_NotStarted in Hn; lia.
Qed.

Lemma regimes_never_go_back_witness :
  (classify Examples.tenant_A 2028 = Reversion -> classify Examples.tenant_A 2034 = Reversion)
  /\ (Lease_Start Examples.tenant_A <= Lease_End Examples.tenant_A ->
      classify Examples.tenant_A 2034 = NotStarted ->
      classify Examples.tenant_A 2028 = NotStarted)
  /\ (Lease_Start Examples.tenant_A <= Lease_End Examples.tenant_A ->
      classify Examples.tenant_A 2028 = InTerm ->
      classify Examples.tenant_A 2034 <> NotStarted).
Proof.
  apply (regimes_never_go_back Examples.tenant_A 2028 2034); lia.
Defined.

(** ** A lease that starts after the ten years *)

(** Scenario C in general: when the lease starts after the last
    projection year (and no later than it ends), the row is ten integer
    zeros, whatever the rents, the escalation and the C library are, and no
    exception is raised. *)
Theorem lease_after_horizon_is_all_zero :
  forall libm_pow escalation_percent (d : date) (row : LeaseRow),
    Lease_Start row <= Lease_End row ->
    Lease_Start row > Calendar.end_of_year (year d + 9) ->
    tenant_row libm_pow escalation_percent (years_of d) row
    = Ok (repeat (PyInt 0) 10).
Proof.
  intros libm_pow esc d row Hle Hlate.
  unfold tenant_row.
  rewrite (mapM_all_Ok _ (fun _ => PyInt 0)).
  - rewrite years_of_unfold; reflexivity.
  - intros (i, y) Hin; cbn [fst snd].
    assert (Hy : year d <= y <= year d + 9).
    { rewrite years_of_unfold in Hin; unfold enumerate in Hin; simpl in Hin.
      repeat (destruct Hin as [Hin|Hin]; [injection Hin as _ <-; lia|]).
      contradiction. }
    pose proof (end_of_year_mono y (year d + 9) ltac:(lia)).
    pose proof (start_before_end_of_year y).
    apply cell_not_started; lia.
Qed.

Lemma lease_after_horizon_is_all_zero_witness :
  tenant_row ReferenceLibm.pow 5 (years_of Examples.valuation_2025) Examples.future
  = Ok (repeat (PyInt 0) 10).
Proof.
  apply (lease_after_horizon_is_all_zero ReferenceLibm.pow 5%float
           Examples.valuation_2025 Examples.future).
  - vm_compute; discriminate.
  - vm_compute; reflexivity.
Defined.

(** ** No escalation *)

Lemma escalation_zero libm_pow (i : nat) :
  escalation libm_pow 0 i = Ok 1%float.
Proof.
  unfold escalation.
  change (PyFloat.const 1 + 0 / PyFloat.const 100)%float with 1%float.
  unfold PyFloat.pow; cbv zeta.
  destruct (PyFloat.const (Z.of_nat i) =? 0)%float; reflexivity.
Qed.

(** With an escalation of 0 percent the C library is not called, the
    factor is 1.0 at every offset, and a reverted unit has the same cell
    in every year: the float of its market rent, rounded. *)
Theorem zero_escalation_is_flat :
  forall libm_pow (d : date) (row : LeaseRow) (cells : list pynum) (i : nat),
    tenant_row libm_pow 0 (years_of d) row = Ok cells ->
    (i < 10)%nat ->
    Lease_End row < Calendar.start_of_year (year d + Z.of_nat i) ->
    escalation libm_pow 0 i = Ok 1%float
    /\ exists market_rent r,
         converts_to (Market_Rent row) market_rent
         /\ rounded_to_cents market_rent r
         /\ nth_error cells i = Some (PyFloat r)
         /\ forall j, (i <= j < 10)%nat -> nth_error cells j = Some (PyFloat r).
Proof.
  intros libm_pow d row cells i Hrow Hi Hend.
  split; [apply escalation_zero|].
  assert (Hcell : forall j, (i <= j < 10)%nat ->
            exists m, PyFloat.to_float (Market_Rent row) = Ok m
                      /\ nth_error cells j = Some (PyFloat (PyFloat.round2 m))).
  { intros j Hj.
    destruct (tenant_row_nth_error _ _ _ _ _ j Hrow) as (c & Hc & Hn); [lia|].
    assert (Hendj : Lease_End row < Calendar.start_of_year (year d + Z.of_nat j)).
    { pose proof (start_of_year_mono (year d + Z.of_nat i) (year d + Z.of_nat j)); lia. }
    destruct (cell_reversion _ _ _ _ _ _ Hendj Hc) as (g & m & Hg & Hm & ->).
    rewrite escalation_zero in Hg.
    assert (g = 1%float) by congruence; subst g.
    rewrite mul_one_r in Hn; eauto. }
  destruct (Hcell i ltac:(lia)) as (m & Hm & Hn).
  exists m, (PyFloat.round2 m).
  split; [apply to_float_converts, Hm|].
  split; [apply round2_rounded|].
  split; [exact Hn|].
  intros j Hj; destruct (Hcell j Hj) as (m' & Hm' & Hn').
  rewrite Hm in Hm'; assert (m' = m) by congruence; subst m'; exact Hn'.
Qed.

Lemma zero_escalation_is_flat_witness :
  escalation ReferenceLibm.pow 0 3 = Ok 1%float
  /\ exists market_rent r,
       converts_to (Market_Rent Examples.tenant_A) market_rent
       /\ rounded_to_cents market_rent r
       /\ nth_error (Examples.cells_of 0 Examples.tenant_A) 3 = Some (PyFloat r)
       /\ forall j, (3 <= j < 10)%nat ->
                    nth_error (Examples.cells_of 0 Examples.tenant_A) j = Some (PyFloat r).
Proof.
  apply (zero_escalation_is_flat ReferenceLibm.pow Examples.valuation_2025
           Examples.tenant_A (Examples.cells_of 0 Examples.tenant_A) 3).
  - vm_compute; reflexivity.
  - lia.
  - vm_compute; reflexivity.
Defined.

(** ** The exceptions of a row *)

Lemma enumerate_years_In (d : date) (i : nat) (y : Z) :
  In (i, y) (enumerate (years_of d)) -> (i < 10)%nat /\ y = year d + Z.of_nat i.
Proof.
  rewrite years_of_unfold; unfold enumerate; simpl; intros Hin.
  repeat (destruct Hin as [Hin|Hin];
          [injection Hin as <- <-; split; [lia|reflexivity]|]).
  contradiction.
Qed.

Lemma escalation_not_ZeroDivisionError libm_pow escalation_percent (i : nat) :
  escalation libm_pow escalation_percent i <> Raise ZeroDivisionError.
Proof.
  unfold escalation, PyFloat.pow; cbv zeta.
  repeat match goal with
         | |- context [if ?b then _ else _] => destruct b
         end; discriminate.
Qed.

Lemma to_float_not_ZeroDivisionError (a : pynum) :
  PyFloat.to_float a <> Raise ZeroDivisionError.
Proof.
  destruct a as [n|x]; [|discriminate].
  unfold PyFloat.to_float, PyFloat.of_int.
  destruct (PyFloat.SF_of_Z n); discriminate.
Qed.

Lemma int_true_div_not_ZeroDivisionError (k n : Z) :
  n <> 0 -> PyFloat.int_true_div k n <> Raise ZeroDivisionError.
Proof.
  intros Hn; unfold PyFloat.int_true_div.
  destruct (Z.eqb_spec n 0); [contradiction|].
  destruct (SFdiv prec emax (PyFloat.exact_of_Z k) (PyFloat.exact_of_Z n)); discriminate.
Qed.

(** The division by the days of the year never divides by zero: whatever
    the dates of the lease are (even a lease that ends before it starts),
    a row never raises [ZeroDivisionError]; and with rents that convert to
    floats and growth factors that the power computes, a lease that starts
    no later than it ends raises nothing at all. *)
Theorem row_failures :
  forall libm_pow escalation_percent (d : date) (row : LeaseRow),
    tenant_row libm_pow escalation_percent (years_of d) row <> Raise ZeroDivisionError
    /\ (Lease_Start row <= Lease_End row ->
        (exists p, PyFloat.to_float (Passing_Rent row) = Ok p) ->
        (exists m, PyFloat.to_float (Market_Rent row) = Ok m) ->
        (forall i, (i < 10)%nat ->
                   exists g, escalation libm_pow escalation_percent i = Ok g) ->
        exists cells,
          tenant_row libm_pow escalation_percent (years_of d) row = Ok cells).
Proof.
  intros libm_pow esc d row; split.
  - intros H; unfold tenant_row in H.
    destruct (mapM_Raise _ _ _ H) as ((i, y) & _ & Hc); cbn [fst snd] in Hc.
    unfold cell in Hc; cbv zeta in Hc.
    pose proof (escalation_not_ZeroDivisionError libm_pow esc i) as He.
    destruct (Lease_End row <? Calendar.start_of_year y).
    + destruct (escalation libm_pow esc i) as [g|e]; cbn [bind] in Hc; [|congruence].
      unfold PyFloat.mul in Hc.
      pose proof (to_float_not_ZeroDivisionError (Market_Rent row)) as Hm.
      destruct (PyFloat.to_float (Market_Rent row)); cbn [bind] in Hc;
        [discriminate|congruence].
    + destruct (Lease_Start row >? Calendar.end_of_year y); [discriminate|].
      destruct (escalation libm_pow esc i) as [g|e]; cbn [bind] in Hc; [|congruence].
      unfold PyFloat.mul in Hc.
      pose proof (to_float_not_ZeroDivisionError (Passing_Rent row)) as Hp.
      destruct (PyFloat.to_float (Passing_Rent row)); cbn [bind] in Hc; [|congruence].
      assert (Hn : days_in_year y <> 0) by (destruct (days_in_year_cases y); lia).
      pose proof (int_true_div_not_ZeroDivisionError (days_covered row y) _ Hn) as Hd.
      destruct (PyFloat.int_true_div (days_covered row y) (days_in_year y));
        cbn [bind] in Hc; [discriminate|congruence].
  - intros Hle (p & Hp) (m & Hm) Hg.
    destruct (tenant_row libm_pow esc (years_of d) row) as [cells|e] eqn:H; [eauto|].
    exfalso; unfold tenant_row in H.
    destruct (mapM_Raise _ _ _ H) as ((i, y) & Hin & Hc); cbn [fst snd] in Hc.
    destruct (enumerate_years_In _ _ _ Hin) as (Hi & ->).
    destruct (Hg i Hi) as (g & Eg).
    unfold cell in Hc; cbv zeta in Hc.
    rewrite Eg in Hc; cbn [bind] in Hc.
    unfold PyFloat.mul in Hc; rewrite Hp, Hm in Hc; cbn [bind] in Hc.
    destruct (Z.ltb_spec (Lease_End row) (Calendar.start_of_year (year d + Z.of_nat i)));
      [discriminate|].
    destruct (Lease_Start row >? Calendar.end_of_year (year d + Z.of_nat i)) eqn:Es;
      [discriminate|].
    assert (Hs : ~ Lease_Start row > Calendar.end_of_year (year d + Z.of_nat i)).
    { intros Hgt; apply Z.gtb_gt in Hgt; congruence. }
    assert (He : ~ Lease_End row < Calendar.start_of_year (year d + Z.of_nat i)) by lia.
    pose proof (days_covered_bounds row _ Hle He Hs) as Hd.
    pose proof (proper_fraction_of_days _ _ (days_in_year_cases _) Hd) as Hpf.
    unfold proper_fraction in Hpf.
    destruct (PyFloat.int_true_div (days_covered row (year d + Z.of_nat i))
                (days_in_year (year d + Z.of_nat i))); [discriminate|discriminate].
Qed.

(** ** The sign and the size of a cell *)

Lemma round2_zero : PyFloat.round2 0 = 0%float.
Proof. vm_compute; reflexivity. Qed.

Lemma round2_nonneg (x : float) :
  (0 <=? x)%float = true -> (0 <=? PyFloat.round2 x)%float = true.
Proof.
  intros Hx; rewrite <- round2_zero at 1.
  apply round2_mono; [reflexivity|exact Hx].
Qed.

Lemma py_le_zero_float (x : float) :
  (0 <=? x)%float = true -> py_le (PyInt 0) (PyFloat x) = true.
Proof.
  rewrite leb_spec; change (Prim2SF 0) with (S754_zero false).
  unfold py_le.
  destruct (Prim2SF x) as [s|[|]| |[|] m e]; try discriminate; intros _;
    cbn [Z_compare_SF]; try reflexivity.
  destruct e as [|p|p].
  - replace (0 ?= Z.pos m * 2 ^ 0) with Lt; [reflexivity|].
    symmetry; apply Z.compare_lt_iff; lia.
  - replace (0 ?= Z.pos m * 2 ^ Z.pos p) with Lt; [reflexivity|].
    symmetry; apply Z.compare_lt_iff.
    apply Z.mul_pos_pos; [lia|apply Z.pow_pos_nonneg; lia].
  - replace (0 * 2 ^ Z.pos p ?= Z.pos m) with Lt; [reflexivity|].
    symmetry; apply Z.compare_lt_iff; lia.
Qed.

(** With non-negative rents and a positive finite growth factor, no cell
    is negative (for a lease that starts no later than it ends): the grid
    shows no negative rent. *)
Theorem cells_are_nonnegative :
  forall libm_pow escalation_percent (d : date) (row : LeaseRow)
         (cells : list pynum) (i : nat) (c : pynum),
    tenant_row libm_pow escalation_percent (years_of d) row = Ok cells ->
    (i < 10)%nat ->
    Lease_Start row <= Lease_End row ->
    py_le (PyInt 0) (Passing_Rent row) = true ->
    py_le (PyInt 0) (Market_Rent row) = true ->
    (forall g, escalation libm_pow escalation_percent i = Ok g ->
               (0 <? g)%float = true /\ (g <? infinity)%float = true) ->
    nth_error cells i = Some c ->
    py_le (PyInt 0) c = true.
Proof.
  intros libm_pow esc d row cells i c Hrow Hi Hle Hp Hm Hg Hc.
  destruct (tenant_row_nth_error _ _ _ _ _ i Hrow Hi) as (c0 & Hcell & Hn).
  assert (c0 = c) by congruence; subst c0; clear Hn.
  set (y := year d + Z.of_nat i) in *.
  destruct (classify row y) eqn:Hclass.
  - apply classify_Reversion in Hclass.
    destruct (cell_reversion _ _ _ _ _ _ Hclass Hcell) as (g & m & Eg & Em & ->).
    destruct (Hg g Eg) as (Hg0 & Hg1).
    apply py_le_zero_float, round2_nonneg, mul_nonneg; try assumption.
    exact (rent_nonneg _ _ Hm Em).
  - apply classify_NotStarted in Hclass as (Hend & Hstart).
    rewrite (cell_not_started libm_pow esc row i y Hend Hstart) in Hcell.
    injection Hcell as <-; reflexivity.
  - apply classify_InTerm in Hclass as (Hend & Hstart).
    destruct (cell_in_term _ _ _ _ _ _ Hend Hstart Hcell) as (g & p & f & Eg & Ep & Ef & ->).
    destruct (Hg g Eg) as (Hg0 & Hg1).
    pose proof (days_covered_bounds row y Hle Hend Hstart) as Hd.
    pose proof (proper_fraction_of_days _ _ (days_in_year_cases y) Hd) as Hpf.
    unfold proper_fraction in Hpf; rewrite Ef in Hpf.
    apply andb_true_iff in Hpf as (Hf0 & Hf1).
    apply py_le_zero_float, round2_nonneg, mul_nonneg.
    + apply mul_nonneg; try assumption. exact (rent_nonneg _ _ Hp Ep).
    + exact Hf0.
    + apply (leb_lt_infinity _ _ Hf1); reflexivity.
Qed.

Lemma cells_are_nonnegative_witness :
  py_le (PyInt 0) (PyFloat 60342.39) = true.
Proof.
  apply (cells_are_nonnegative ReferenceLibm.pow 5%float Examples.valuation_2025
           Examples.sample_B (Examples.cells_of 5 Examples.sample_B) 4).
  - vm_compute; reflexivity.
  - lia.
  - vm_compute; discriminate.
  - vm_compute; reflexivity.
  - vm_compute; reflexivity.
  - intros g Hg; vm_compute in Hg.
    assert (E : g = 1.2155062500000002%float) by congruence.
    subst g; split; vm_compute; reflexivity.
  - vm_compute; reflexivity.
Defined.

(** A prorated year never shows more than the whole year would: the cell
    of an in-term year is at most the rounded escalated passing rent. *)
Theorem proration_never_raises_rent :
  forall libm_pow escalation_percent (d : date) (row : LeaseRow)
         (cells : list pynum) (i : nat),
    let y := year d + Z.of_nat i in
    tenant_row libm_pow escalation_percent (years_of d) row = Ok cells ->
    (i < 10)%nat ->
    Lease_Start row <= Lease_End row ->
    classify row y = InTerm ->
    py_le (PyInt 0) (Passing_Rent row) = true ->
    (forall g, escalation libm_pow escalation_percent i = Ok g ->
               (0 <? g)%float = true /\ (g <? infinity)%float = true) ->
    exists passing_rent growth r,
      converts_to (Passing_Rent row) passing_rent
      /\ escalation libm_pow escalation_percent i = Ok growth
      /\ nth_error cells i = Some (PyFloat r)
      /\ (r <=? PyFloat.round2 (passing_rent * growth))%float = true.
Proof.
  intros libm_pow esc d row cells i y Hrow Hi Hle Hclass Hp Hg.
  destruct (tenant_row_nth_error _ _ _ _ _ i Hrow Hi) as (c & Hcell & Hn).
  fold y in Hcell.
  apply classify_InTerm in Hclass as (Hend & Hstart).
  destruct (cell_in_term _ _ _ _ _ _ Hend Hstart Hcell) as (g & p & f & Eg & Ep & Ef & ->).
  destruct (Hg g Eg) as (Hg0 & Hg1).
  pose proof (days_covered_bounds row y Hle Hend Hstart) as Hd.
  pose proof (proper_fraction_of_days _ _ (days_in_year_cases y) Hd) as Hpf.
  unfold proper_fraction in Hpf; rewrite Ef in Hpf.
  apply andb_true_iff in Hpf as (Hf0 & Hf1).
  exists p, g, (PyFloat.round2 (p * g * f)).
  split; [apply to_float_converts, Ep|].
  split; [exact Eg|].
  split; [exact Hn|].
  assert (Hpg : (0 <=? p * g)%float = true).
  { apply mul_nonneg; try assumption. exact (rent_nonneg _ _ Hp Ep). }
  apply round2_mono.
  - apply mul_nonneg; try assumption.
    apply (leb_lt_infinity _ _ Hf1); reflexivity.
  - rewrite <- (mul_one_r (p * g)) at 2.
    apply mul_mono; try assumption; [apply leb_refl_nonneg, Hpg|reflexivity].
Qed.

Lemma proration_never_raises_rent_witness :
  exists passing_rent growth r,
    converts_to (Passing_Rent Examples.sample_B) passing_rent
    /\ escalation ReferenceLibm.pow 5 4 = Ok growth
    /\ nth_error (Examples.cells_of 5 Examples.sample_B) 4 = Some (PyFloat r)
    /\ (r <=? PyFloat.round2 (passing_rent * growth))%float = true.
Proof.
  apply (proration_never_raises_rent ReferenceLibm.pow 5%float Examples.valuation_2025
           Examples.sample_B (Examples.cells_of 5 Examples.sample_B) 4).
  - vm_compute; reflexivity.
  - lia.
  - vm_compute; discriminate.
  - vm_compute; reflexivity.
  - vm_compute; reflexivity.
  - intros g Hg; vm_compute in Hg.
    assert (E : g = 1.2155062500000002%float) by congruence.
    subst g; split; vm_compute; reflexivity.
Defined.

(** ** Rounding *)

(** [round(x, 2)] keeps the order of non-negative amounts, keeps zero, and
    returns a non-negative amount for a non-negative one: rounding never
    turns a larger rent into a smaller cell. *)
Theorem rounding_keeps_order :
  forall x y : float,
    (0 <=? x)%float = true -> (x <=? y)%float = true ->
    (PyFloat.round2 x <=? PyFloat.round2 y)%float = true
    /\ (0 <=? PyFloat.round2 x)%float = true
    /\ PyFloat.round2 0 = 0%float.
Proof.
  intros x y Hx Hxy; split; [|split].
  - apply round2_mono; assumption.
  - apply round2_nonneg, Hx.
  - apply round2_zero.
Qed.

Lemma rounding_keeps_order_witness :
  (PyFloat.round2 109974.37500000001 <=? PyFloat.round2 109974.385)%float = true
  /\ (0 <=? PyFloat.round2 109974.37500000001)%float = true
  /\ PyFloat.round2 0 = 0%float.
Proof.
  apply (rounding_keeps_order 109974.37500000001%float 109974.385%float);
    vm_compute; reflexivity.
Defined.

(** ** The days of a year *)

(** A projection year has 366 days exactly when it is a Gregorian leap
    year (divisible by 4 and not by 100, or divisible by 400), and 365
    otherwise, for every year: the denominator of the proration. *)
Theorem days_in_year_is_gregorian :
  forall y : Z,
    (days_in_year y = 366 <-> (y mod 4 = 0 /\ y mod 100 <> 0) \/ y mod 400 = 0)
    /\ (days_in_year y = 365 <-> ~ ((y mod 4 = 0 /\ y mod 100 <> 0) \/ y mod 400 = 0))
    /\ days_in_year 2024 = 366 /\ days_in_year 2025 = 365
    /\ days_in_year 2100 = 365 /\ days_in_year 2000 = 366.
Proof.
  intros y.
  assert (H : Calendar.is_leap y = true
              <-> (y mod 4 = 0 /\ y mod 100 <> 0) \/ y mod 400 = 0).
  { unfold Calendar.is_leap.
    destruct (Z.eqb_spec (y mod 4) 0), (Z.eqb_spec (y mod 100) 0),
      (Z.eqb_spec (y mod 400) 0); cbn [andb orb negb]; split; intros; try lia;
      try reflexivity; try discriminate. }
  rewrite !days_in_year_leap.
  split; [|split; [|repeat split]].
  - rewrite <- H; destruct (Calendar.is_leap y); split; intros; try lia;
      try reflexivity; discriminate.
  - rewrite <- H; destruct (Calendar.is_leap y); split; intros E; try lia;
      try reflexivity; try discriminate; exfalso; apply E; reflexivity.
Qed.

(** ** The valuation year *)

(** In the valuation year itself (offset 0) nothing is escalated: the
    growth factor is 1.0 for every escalation percentage (infinite ones and
    nan included) and every C library, and a reverted unit shows its market
    rent, rounded. *)
Theorem valuation_year_is_not_escalated :
  forall libm_pow escalation_percent (d : date) (row : LeaseRow) (cells : list pynum),
    escalation libm_pow escalation_percent 0 = Ok 1%float
    /\ (tenant_row libm_pow escalation_percent (years_of d) row = Ok cells ->
        Lease_End row < Calendar.start_of_year (year d) ->
        exists market_rent r,
          converts_to (Market_Rent row) market_rent
          /\ rounded_to_cents market_rent r
          /\ nth_error cells 0 = Some (PyFloat r)).
Proof.
  intros libm_pow esc d row cells.
  assert (E0 : escalation libm_pow esc 0 = Ok 1%float) by reflexivity.
  split; [exact E0|].
  intros Hrow Hend.
  destruct (tenant_row_nth_error _ _ _ _ _ 0%nat Hrow) as (c & Hc & Hn); [lia|].
  change (Z.of_nat 0) with 0 in Hc; rewrite Z.add_0_r in Hc.
  destruct (cell_reversion _ _ _ _ _ _ Hend Hc) as (g & m & Hg & Hm & ->).
  rewrite E0 in Hg; assert (g = 1%float) by congruence; subst g.
  rewrite mul_one_r in Hn.
  exists m, (PyFloat.round2 m).
  split; [apply to_float_converts, Hm|].
  split; [apply round2_rounded|exact Hn].
Qed.
